(** * BLEManager: connection and session management for the G1 glasses

    A shallow embedding of [connector/bluetooth.py] (class [BLEManager]).
    The manager drives two BLE links (left and right lens), a global
    connection state, a persisted address store and a few background
    loops.  Everything the Python code obtains from outside (the BLE
    stack, PowerShell, the pairing manager, the command manager, the file
    system) is read from a [World]: one answer per call, indexed by a
    call counter kept in the state, so that a run is a function of the
    world and of the start state. *)

From Stdlib Require Import String Ascii List ZArith Lia Bool Arith.
From stdpp Require Import gmap strings.
Import ListNotations.
Open Scope string_scope.

(** ** Python string operations used by the manager (ASCII text) *)

Module PyStr.

(** [sub in s]: substring test. *)
Fixpoint contains (sub s : string) : bool :=
  if String.prefix sub s then true
  else match s with
       | EmptyString => false
       | String _ s' => contains sub s'
       end.

(** [str.upper] and [str.lower] on ASCII text: the letters a-z and A-Z are
    mapped, every other character is left alone.  Python also maps
    characters outside ASCII (U+0131 upper-cases to I, U+017F to S), which
    a string of this model cannot hold; what is stated about letter case
    is stated for ASCII strings. *)
Definition upper_ascii (c : ascii) : ascii :=
  let n := nat_of_ascii c in
  if (97 <=? n)%nat && (n <=? 122)%nat then ascii_of_nat (n - 32) else c.

Definition lower_ascii (c : ascii) : ascii :=
  let n := nat_of_ascii c in
  if (65 <=? n)%nat && (n <=? 90)%nat then ascii_of_nat (n + 32) else c.

Fixpoint map_string (f : ascii -> ascii) (s : string) : string :=
  match s with
  | EmptyString => EmptyString
  | String c s' => String (f c) (map_string f s')
  end.

Definition upper : string -> string := map_string upper_ascii.
Definition lower : string -> string := map_string lower_ascii.

(** The ASCII characters [str.strip()] removes. *)
Definition is_space (c : ascii) : bool :=
  let n := nat_of_ascii c in
  ((9 <=? n)%nat && (n <=? 13)%nat) || ((28 <=? n)%nat && (n <=? 32)%nat).

Fixpoint lstrip (s : string) : string :=
  match s with
  | String c s' => if is_space c then lstrip s' else s
  | EmptyString => EmptyString
  end.

Fixpoint rstrip (s : string) : string :=
  match s with
  | EmptyString => EmptyString
  | String c s' =>
      match rstrip s' with
      | EmptyString => if is_space c then EmptyString else String c EmptyString
      | r => String c r
      end
  end.

Definition strip (s : string) : string := rstrip (lstrip s).

(** [s.split(sep)] for a one-character separator: the pieces, in order. *)
Fixpoint split_aux (sep : ascii) (s cur : string) : list string :=
  match s with
  | EmptyString => [cur]
  | String c s' =>
      if Ascii.eqb c sep then cur :: split_aux sep s' EmptyString
      else split_aux sep s' (cur ++ String c EmptyString)
  end.

Definition split (sep : ascii) (s : string) : list string :=
  split_aux sep s EmptyString.

Definition newline : ascii := ascii_of_nat 10.

(** Truth value of a string: empty is false. *)
Definition nonempty (s : string) : bool :=
  match s with EmptyString => false | _ => true end.

End PyStr.

(** Truth value of an optional string ([None] and [""] are false). *)
Definition truthy (o : option string) : bool :=
  match o with
  | Some s => PyStr.nonempty s
  | None => false
  end.

(** [str(x)] of an optional string. *)
Definition py_str (o : option string) : string :=
  match o with
  | Some s => s
  | None => "None"
  end.

Definition opt_string_eqb (a b : option string) : bool :=
  match a, b with
  | Some x, Some y => String.eqb x y
  | None, None => true
  | _, _ => false
  end.

(** ** Data model *)

(** The two lens units; the code names them by the strings ['left'] and
    ['right']. *)
Inductive Side : Type := Left | Right.


(** Modelled from the spec: [ConnectionState] of [utils.constants] is not
    part of the sources; these are the four values the manager writes. *)
Inductive ConnectionState : Type :=
  DISCONNECTED | SCANNING | CONNECTING | CONNECTED.

(** Durations are in milliseconds. *)
Abbreviation Duration := Z.

(** The fields of [connector.config] the manager reads and writes. *)
Record Config : Type := {
  left_address : option string;
  right_address : option string;
  left_name : option string;
  right_name : option string;
  reconnect_attempts : nat;
  reconnect_delay : Duration;
  connection_timeout : Duration;
  heartbeat_interval : Duration
}.

Definition set_left_address (a : option string) (c : Config) : Config :=
  {| left_address := a; right_address := right_address c;
     left_name := left_name c; right_name := right_name c;
     reconnect_attempts := reconnect_attempts c;
     reconnect_delay := reconnect_delay c;
     connection_timeout := connection_timeout c;
     heartbeat_interval := heartbeat_interval c |}.

Definition set_right_address (a : option string) (c : Config) : Config :=
  {| left_address := left_address c; right_address := a;
     left_name := left_name c; right_name := right_name c;
     reconnect_attempts := reconnect_attempts c;
     reconnect_delay := reconnect_delay c;
     connection_timeout := connection_timeout c;
     heartbeat_interval := heartbeat_interval c |}.

Definition set_left_name (a : option string) (c : Config) : Config :=
  {| left_address := left_address c; right_address := right_address c;
     left_name := a; right_name := right_name c;
     reconnect_attempts := reconnect_attempts c;
     reconnect_delay := reconnect_delay c;
     connection_timeout := connection_timeout c;
     heartbeat_interval := heartbeat_interval c |}.

Definition set_right_name (a : option string) (c : Config) : Config :=
  {| left_address := left_address c; right_address := right_address c;
     left_name := left_name c; right_name := a;
     reconnect_attempts := reconnect_attempts c;
     reconnect_delay := reconnect_delay c;
     connection_timeout := connection_timeout c;
     heartbeat_interval := heartbeat_interval c |}.

Definition side_address (s : Side) (c : Config) : option string :=
  match s with Left => left_address c | Right => right_address c end.

(** A [BleakClient]: the address it was built for, whether it carries the
    disconnect callback, and its [is_connected] flag. *)
Record Client : Type := {
  c_address : string;
  c_callback : option Side;
  c_connected : bool
}.

(** An entry of [connector._connection_quality]. *)
Record Quality : Type := { rssi : option Z; errors : nat }.

(** How the handler of a failed attempt names the failure in its log. *)
Inductive FailureClass : Type := NotFound | Timeout | Busy | OtherError.

(** What the manager does to the outside, in order. *)
Inductive Event : Type :=
| EvAttempt (s : Side) (attempt : nat)   (* the log line opening an attempt *)
| EvFailure (s : Side) (c : FailureClass)   (* the warning of the handler *)
| EvOpen (s : Side) (addr : string) (timeout : Duration)
| EvOpenFallback (addr : string) (timeout : Duration)
| EvLookup (s : Side)
| EvClose (addr : string)
| EvNotify (s : Side)
| EvSleep (d : Duration)
| EvSave
| EvPairing
| EvCmdStart
| EvCmdStop
| EvWindowsQuery
| EvWmiQuery
| EvDiscover (timeout : Duration)
| EvSend (s : Side) (frame : list Z)   (* a frame handed to the transport *)
| EvSpawnMonitor
| EvCancelMonitor.

(** The state of the manager, of its connector and of their collaborators.
    [conn_log] records every write of the connection state as a pair
    (state before, state written), newest first; [events] is newest first
    too; [tick] counts the calls made to the outside. *)
Record St : Type := {
  config : Config;
  persisted : Config;
  left_client : option Client;
  right_client : option Client;
  conn : ConnectionState;
  conn_log : list (ConnectionState * ConnectionState);
  shutting_down : bool;
  monitoring_task : bool;
  error_count : nat;
  last_error : option string;
  last_heartbeat : option nat;
  silent_mode : bool;
  connection_quality : gmap string Quality;
  events : list Event;
  tick : nat
}.

(** Field updates. *)

Definition with_config (x : Config) (st : St) : St :=
  {| config := x; persisted := persisted st; left_client := left_client st;
     right_client := right_client st; conn := conn st;
     conn_log := conn_log st; shutting_down := shutting_down st;
     monitoring_task := monitoring_task st; error_count := error_count st;
     last_error := last_error st; last_heartbeat := last_heartbeat st;
     silent_mode := silent_mode st;
     connection_quality := connection_quality st; events := events st;
     tick := tick st |}.

Definition with_persisted (x : Config) (st : St) : St :=
  {| config := config st; persisted := x; left_client := left_client st;
     right_client := right_client st; conn := conn st;
     conn_log := conn_log st; shutting_down := shutting_down st;
     monitoring_task := monitoring_task st; error_count := error_count st;
     last_error := last_error st; last_heartbeat := last_heartbeat st;
     silent_mode := silent_mode st;
     connection_quality := connection_quality st; events := events st;
     tick := tick st |}.

Definition with_left_client (x : option Client) (st : St) : St :=
  {| config := config st; persisted := persisted st; left_client := x;
     right_client := right_client st; conn := conn st;
     conn_log := conn_log st; shutting_down := shutting_down st;
     monitoring_task := monitoring_task st; error_count := error_count st;
     last_error := last_error st; last_heartbeat := last_heartbeat st;
     silent_mode := silent_mode st;
     connection_quality := connection_quality st; events := events st;
     tick := tick st |}.

Definition with_right_client (x : option Client) (st : St) : St :=
  {| config := config st; persisted := persisted st;
     left_client := left_client st; right_client := x; conn := conn st;
     conn_log := conn_log st; shutting_down := shutting_down st;
     monitoring_task := monitoring_task st; error_count := error_count st;
     last_error := last_error st; last_heartbeat := last_heartbeat st;
     silent_mode := silent_mode st;
     connection_quality := connection_quality st; events := events st;
     tick := tick st |}.

Definition with_conn (x : ConnectionState) (st : St) : St :=
  {| config := config st; persisted := persisted st;
     left_client := left_client st; right_client := right_client st;
     conn := x; conn_log := conn_log st; shutting_down := shutting_down st;
     monitoring_task := monitoring_task st; error_count := error_count st;
     last_error := last_error st; last_heartbeat := last_heartbeat st;
     silent_mode := silent_mode st;
     connection_quality := connection_quality st; events := events st;
     tick := tick st |}.

Definition with_conn_log (x : list (ConnectionState * ConnectionState))
  (st : St) : St :=
  {| config := config st; persisted := persisted st;
     left_client := left_client st; right_client := right_client st;
     conn := conn st; conn_log := x; shutting_down := shutting_down st;
     monitoring_task := monitoring_task st; error_count := error_count st;
     last_error := last_error st; last_heartbeat := last_heartbeat st;
     silent_mode := silent_mode st;
     connection_quality := connection_quality st; events := events st;
     tick := tick st |}.

Definition with_shutting_down (x : bool) (st : St) : St :=
  {| config := config st; persisted := persisted st;
     left_client := left_client st; right_client := right_client st;
     conn := conn st; conn_log := conn_log st; shutting_down := x;
     monitoring_task := monitoring_task st; error_count := error_count st;
     last_error := last_error st; last_heartbeat := last_heartbeat st;
     silent_mode := silent_mode st;
     connection_quality := connection_quality st; events := events st;
     tick := tick st |}.

Definition with_monitoring_task (x : bool) (st : St) : St :=
  {| config := config st; persisted := persisted st;
     left_client := left_client st; right_client := right_client st;
     conn := conn st; conn_log := conn_log st;
     shutting_down := shutting_down st; monitoring_task := x;
     error_count := error_count st; last_error := last_error st;
     last_heartbeat := last_heartbeat st; silent_mode := silent_mode st;
     connection_quality := connection_quality st; events := events st;
     tick := tick st |}.

Definition with_error_count (x : nat) (st : St) : St :=
  {| config := config st; persisted := persisted st;
     left_client := left_client st; right_client := right_client st;
     conn := conn st; conn_log := conn_log st;
     shutting_down := shutting_down st;
     monitoring_task := monitoring_task st; error_count := x;
     last_error := last_error st; last_heartbeat := last_heartbeat st;
     silent_mode := silent_mode st;
     connection_quality := connection_quality st; events := events st;
     tick := tick st |}.

Definition with_last_error (x : option string) (st : St) : St :=
  {| config := config st; persisted := persisted st;
     left_client := left_client st; right_client := right_client st;
     conn := conn st; conn_log := conn_log st;
     shutting_down := shutting_down st;
     monitoring_task := monitoring_task st; error_count := error_count st;
     last_error := x; last_heartbeat := last_heartbeat st;
     silent_mode := silent_mode st;
     connection_quality := connection_quality st; events := events st;
     tick := tick st |}.

Definition with_last_heartbeat (x : option nat) (st : St) : St :=
  {| config := config st; persisted := persisted st;
     left_client := left_client st; right_client := right_client st;
     conn := conn st; conn_log := conn_log st;
     shutting_down := shutting_down st;
     monitoring_task := monitoring_task st; error_count := error_count st;
     last_error := last_error st; last_heartbeat := x;
     silent_mode := silent_mode st;
     connection_quality := connection_quality st; events := events st;
     tick := tick st |}.

Definition with_silent_mode (x : bool) (st : St) : St :=
  {| config := config st; persisted := persisted st;
     left_client := left_client st; right_client := right_client st;
     conn := conn st; conn_log := conn_log st;
     shutting_down := shutting_down st;
     monitoring_task := monitoring_task st; error_count := error_count st;
     last_error := last_error st; last_heartbeat := last_heartbeat st;
     silent_mode := x; connection_quality := connection_quality st;
     events := events st; tick := tick st |}.

Definition with_connection_quality (x : gmap string Quality) (st : St) : St :=
  {| config := config st; persisted := persisted st;
     left_client := left_client st; right_client := right_client st;
     conn := conn st; conn_log := conn_log st;
     shutting_down := shutting_down st;
     monitoring_task := monitoring_task st; error_count := error_count st;
     last_error := last_error st; last_heartbeat := last_heartbeat st;
     silent_mode := silent_mode st; connection_quality := x;
     events := events st; tick := tick st |}.

Definition with_events (x : list Event) (st : St) : St :=
  {| config := config st; persisted := persisted st;
     left_client := left_client st; right_client := right_client st;
     conn := conn st; conn_log := conn_log st;
     shutting_down := shutting_down st;
     monitoring_task := monitoring_task st; error_count := error_count st;
     last_error := last_error st; last_heartbeat := last_heartbeat st;
     silent_mode := silent_mode st;
     connection_quality := connection_quality st; events := x;
     tick := tick st |}.

Definition with_tick (x : nat) (st : St) : St :=
  {| config := config st; persisted := persisted st;
     left_client := left_client st; right_client := right_client st;
     conn := conn st; conn_log := conn_log st;
     shutting_down := shutting_down st;
     monitoring_task := monitoring_task st; error_count := error_count st;
     last_error := last_error st; last_heartbeat := last_heartbeat st;
     silent_mode := silent_mode st;
     connection_quality := connection_quality st; events := events st;
     tick := x |}.

(** ** The outside world and the monad of the manager *)

(** A call returns, or raises an exception with a message. *)
Inductive Outcome (A : Type) : Type :=
| Ret (a : A)
| Exc (msg : string).
Arguments Ret {A} a.
Arguments Exc {A} msg.

(** What a service-table lookup of [_verify_connection] finds. *)
Inductive Lookup : Type := LkOk | LkNoService | LkNoChars.

(** A device reported by [BleakScanner.discover]. *)
Record Device : Type := { d_name : option string; d_address : string }.

(** An entry of the list [_get_windows_connected_g1_devices] returns. *)
Record DeviceInfo : Type := { di_name : string; di_address : option string }.

(** The result of [subprocess.run]. *)
Record Completed : Type := { returncode : Z; stdout : string }.

(** The answers of the outside, one per call, indexed by the call counter:
    [w_open] is [client.connect] (the [is_connected] flag afterwards),
    [w_lookup] the service lookup, [w_call] any call made for its effect
    ([client.disconnect], [start_notifications], [config.save],
    [command_manager.start] and [stop]), [w_pairing] is
    [pairing_manager.verify_pairing], [w_discover] the radio scan and
    [w_subprocess] a PowerShell query. *)
Record World : Type := {
  w_open : nat -> Outcome bool;
  w_lookup : nat -> Outcome Lookup;
  w_call : nat -> Outcome unit;
  w_pairing : nat -> Outcome bool;
  w_discover : nat -> Outcome (list Device);
  w_subprocess : nat -> Outcome Completed
}.

Definition M (A : Type) : Type := St -> Outcome A * St.

Definition ret {A} (a : A) : M A := fun st => (Ret a, st).

Definition raise {A} (msg : string) : M A := fun st => (Exc msg, st).

Definition bind {A B} (m : M A) (k : A -> M B) : M B :=
  fun st =>
    match m st with
    | (Ret a, st') => k a st'
    | (Exc e, st') => (Exc e, st')
    end.

(** [try: m except Exception as e: h e]; the state changes made before
    the exception stay. *)
Definition try_catch {A} (m : M A) (h : string -> M A) : M A :=
  fun st =>
    match m st with
    | (Ret a, st') => (Ret a, st')
    | (Exc e, st') => h e st'
    end.

Declare Scope bm_scope.
Delimit Scope bm_scope with bm.
Notation "x <- m ;; k" := (bind m (fun x => k))
  (at level 100, m at next level, k at level 200, right associativity)
  : bm_scope.
Notation "m ;; k" := (bind m (fun _ => k))
  (at level 100, k at level 200, right associativity) : bm_scope.
Open Scope bm_scope.

Definition gets {A} (f : St -> A) : M A := fun st => (Ret (f st), st).

Definition modify (f : St -> St) : M unit := fun st => (Ret tt, f st).

Definition when (b : bool) (m : M unit) : M unit := if b then m else ret tt.

Definition emit (e : Event) : M unit :=
  modify (fun st => with_events (e :: events st) st).

(** One call to the outside: read the answer at the current tick. *)
Definition ask {A} (f : nat -> Outcome A) : M A :=
  fun st => (f (tick st), with_tick (S (tick st)) st).

(** [for i in idx: body i], where the body may return from the function
    ([Some r]) or fall through to the next iteration ([None]). *)
Fixpoint for_each {I A} (body : I -> M (option A)) (idx : list I)
  : M (option A) :=
  match idx with
  | [] => ret None
  | i :: rest =>
      r <- body i ;;
      match r with
      | Some a => ret (Some a)
      | None => for_each body rest
      end
  end.

Definition range (n : nat) : list nat := seq 0 n.

Definition sleep (d : Duration) : M unit := emit (EvSleep d).

(** [state_manager.set_connection_state]: the state manager is not part
    of the sources; the call stores the state, and the model logs the
    transition. *)
Definition set_connection_state (s : ConnectionState) : M unit :=
  modify (fun st =>
            with_conn s (with_conn_log ((conn st, s) :: conn_log st) st)).

Definition side_client (s : Side) (st : St) : option Client :=
  match s with Left => left_client st | Right => right_client st end.

Definition set_side_client (s : Side) (c : option Client) : M unit :=
  modify (match s with Left => with_left_client c
                     | Right => with_right_client c end).

Definition modify_config (f : Config -> Config) : M unit :=
  modify (fun st => with_config (f (config st)) st).

(** ** The operations of [BLEManager] *)

Section Manager.

Variable w : World.

(** Modelled from the spec: [config.save] is not part of the sources; it
    persists the configuration (the address store) as it is, and as file
    output it can fail. *)
Definition save : M unit :=
  emit EvSave ;;
  ask (w_call w) ;;
  modify (fun st => with_persisted (config st) st).

(** [await client.disconnect()]: the client afterwards. *)
Definition client_disconnect (client : Client) : M Client :=
  emit (EvClose (c_address client)) ;;
  ask (w_call w) ;;
  ret {| c_address := c_address client; c_callback := c_callback client;
         c_connected := false |}.

(** One round of the lookup loop of [_verify_connection]. *)
Definition verify_attempt (side : Side) (attempt : nat) : M (option bool) :=
  try_catch
    (emit (EvLookup side) ;;
     found <- ask (w_lookup w) ;;
     match found with
     | LkNoService =>
         if (Z.of_nat attempt <? 3 - 1)%Z then ret None else ret (Some false)
     | LkNoChars =>
         if (Z.of_nat attempt <? 3 - 1)%Z then ret None else ret (Some false)
     | LkOk => ret (Some true)
     end)
    (fun e =>
       if (Z.of_nat attempt <? 3 - 1)%Z then sleep 1000%Z ;; ret None
       else ret (Some false)).

Definition _verify_connection (client : Client) (side : Side) : M bool :=
  try_catch
    (r <- for_each (verify_attempt side) (range 3) ;;
     match r with
     | Some b => ret b
     | None => ret false
     end)
    (fun e => ret false).

(** The two [client.connect] calls of an attempt: the direct one and, after
    a "not found" error, the fallback without callback and with a fixed
    15 s timeout.  Returns the client the attempt goes on with. *)
Definition open_client (side : Side) (address : string) : M Client :=
  cfg <- gets config ;;
  try_catch
    (emit (EvOpen side address (connection_timeout cfg)) ;;
     b <- ask (w_open w) ;;
     ret {| c_address := address; c_callback := Some side;
            c_connected := b |})
    (fun conn_error =>
       if PyStr.contains "not found" (PyStr.lower conn_error) then
         try_catch
           (emit (EvOpenFallback address 15000%Z) ;;
            b <- ask (w_open w) ;;
            ret {| c_address := address; c_callback := None;
                   c_connected := b |})
           (fun alt_error => raise conn_error)
       else raise conn_error).

(** The classification of the handler of a failed attempt. *)
Definition classify (error_msg : string) : FailureClass :=
  if PyStr.contains "not found" (PyStr.lower error_msg) then NotFound
  else if PyStr.contains "timeout" (PyStr.lower error_msg) then Timeout
  else if PyStr.contains "already connected" (PyStr.lower error_msg)
          || PyStr.contains "in use" (PyStr.lower error_msg) then Busy
  else OtherError.

(** The sleep that ends an attempt which did not connect. *)
Definition retry_sleep (attempt : nat) : M unit :=
  cfg <- gets config ;;
  when (Z.of_nat attempt <? Z.of_nat (reconnect_attempts cfg) - 1)%Z
       (sleep (reconnect_delay cfg)).

(** The [try] block of an attempt, up to the sleep that closes it:
    [Some true] returns from [_connect_glass], [None] means the attempt
    did not connect. *)
Definition attempt_body (side : Side) (address : string) (attempt : nat)
  : M (option bool) :=
  emit (EvAttempt side attempt) ;;
  client <- open_client side address ;;
  if c_connected client then
    ok <- _verify_connection client side ;;
    if ok then
      set_side_client side (Some client) ;;
      emit (EvNotify side) ;;
      ask (w_call w) ;;
      ret (Some true)
    else
      client_disconnect client ;;
      ret None
  else ret None.

(** The [except] block of an attempt: name the failure in the log, then
    sleep as after any other failed attempt. *)
Definition attempt_failed (side : Side) (attempt : nat) (e : string)
  : M (option bool) :=
  emit (EvFailure side (classify e)) ;;
  retry_sleep attempt ;;
  ret None.

(** The body of the attempt loop of [_connect_glass]: [None] goes on to
    the next attempt. *)
Definition connect_attempt (side : Side) (address : string) (attempt : nat)
  : M (option bool) :=
  try_catch
    (r <- attempt_body side address attempt ;;
     match r with
     | Some b => ret (Some b)
     | None => retry_sleep attempt ;; ret None
     end)
    (attempt_failed side attempt).

Definition _connect_glass (side : Side) : M bool :=
  try_catch
    (cfg <- gets config ;;
     let address := side_address side cfg in
     if negb (truthy address) then ret false
     else
       r <- for_each (connect_attempt side (py_str address))
                     (range (reconnect_attempts cfg)) ;;
       match r with
       | Some b => ret b
       | None => ret false
       end)
    (fun e => ret false).

(** *** Discovery *)

(** The address the first PowerShell listing gives a line. *)
Definition primary_address (cfg : Config) (line name : string)
  : option string :=
  if PyStr.contains "CCF7207288DB" line then Some "CC:F7:20:72:88:DB"
  else if PyStr.contains "DAD8C8AF5258" line then Some "DA:D8:C8:AF:52:58"
  else if PyStr.contains "_L_" (PyStr.upper name) then left_address cfg
  else if PyStr.contains "_R_" (PyStr.upper name) then right_address cfg
  else None.

Definition primary_devices (cfg : Config) (out : string) : list DeviceInfo :=
  flat_map
    (fun line0 =>
       let line := PyStr.strip line0 in
       if negb (PyStr.nonempty line) || String.prefix "Name" line
          || String.prefix "----" line then []
       else if PyStr.contains "G1" line || PyStr.contains "Even" line then
         let name := PyStr.strip line in
         let address := primary_address cfg line name in
         if truthy address
         then [{| di_name := name; di_address := address |}]
         else []
       else [])
    (PyStr.split PyStr.newline (PyStr.strip out)).

(** The alternative (WMI) listing: the saved address of the side the name
    points to, whatever it is. *)
Definition wmi_devices (cfg : Config) (out : string) : list DeviceInfo :=
  flat_map
    (fun line =>
       if PyStr.contains "G1" line || PyStr.contains "Even" line then
         let name := PyStr.strip line in
         if PyStr.contains "_L_" (PyStr.upper name)
         then [{| di_name := name; di_address := left_address cfg |}]
         else if PyStr.contains "_R_" (PyStr.upper name)
         then [{| di_name := name; di_address := right_address cfg |}]
         else []
       else [])
    (PyStr.split PyStr.newline (PyStr.strip out)).

Definition usable (result : Completed) : bool :=
  (returncode result =? 0)%Z && PyStr.nonempty (PyStr.strip (stdout result)).

Definition _get_windows_connected_g1_devices : M (list DeviceInfo) :=
  cfg <- gets config ;;
  try_catch
    (emit EvWindowsQuery ;;
     result <- ask (w_subprocess w) ;;
     let devices :=
       if usable result then primary_devices cfg (stdout result) else [] in
     match devices with
     | [] =>
         try_catch
           (emit EvWmiQuery ;;
            wmi_result <- ask (w_subprocess w) ;;
            ret (if usable wmi_result
                 then wmi_devices cfg (stdout wmi_result) else []))
           (fun e => ret [])
     | _ :: _ => ret devices
     end)
    (fun e => ret []).
(** Step 1 of the scan, for one device Windows reports: the local flags
    [(left_found, right_found)] before and after. *)
Definition scan_connected_step (found : bool * bool) (device_info : DeviceInfo)
  : M (bool * bool) :=
  let name := di_name device_info in
  let address := di_address device_info in
  if PyStr.contains "_L_" (PyStr.upper name)
     || PyStr.contains "LEFT" (PyStr.upper name) then
    modify_config (set_left_address address) ;;
    modify_config (set_left_name (Some name)) ;;
    ret (true, snd found)
  else if PyStr.contains "_R_" (PyStr.upper name)
          || PyStr.contains "RIGHT" (PyStr.upper name) then
    modify_config (set_right_address address) ;;
    modify_config (set_right_name (Some name)) ;;
    ret (fst found, true)
  else ret found.

Fixpoint fold_m {A B} (f : A -> B -> M A) (acc : A) (l : list B) : M A :=
  match l with
  | [] => ret acc
  | x :: rest => acc' <- f acc x ;; fold_m f acc' rest
  end.

Definition product_patterns : list string :=
  ["_L_"; "_R_"; "G1"; "Even"; "LE-"].

Definition is_g1_name (name : string) : bool :=
  existsb (fun pattern => PyStr.contains pattern name) product_patterns.

(** Step 2 of the scan, for one discovered device: the flags and the list
    [g1_devices] before and after. *)
Definition scan_available_step (acc : bool * bool * list Device)
  (device : Device) : M (bool * bool * list Device) :=
  let '(left_found, right_found, g1_devices) := acc in
  match d_name device with
  | Some name =>
      if PyStr.nonempty name && is_g1_name name then
        let g1_devices' := (g1_devices ++ [device])%list in
        if negb left_found
           && (PyStr.contains "_L_" name || PyStr.contains "Left" name) then
          modify_config (set_left_address (Some (d_address device))) ;;
          modify_config (set_left_name (Some name)) ;;
          ret (true, right_found, g1_devices')
        else if negb right_found
                && (PyStr.contains "_R_" name || PyStr.contains "Right" name)
        then
          modify_config (set_right_address (Some (d_address device))) ;;
          modify_config (set_right_name (Some name)) ;;
          ret (left_found, true, g1_devices')
        else ret (left_found, right_found, g1_devices')
      else ret acc
  | None => ret acc
  end.

(** Step 3 of the scan: the sides still missing take the first G1 devices
    whose address is not stored yet. *)
Definition scan_assign_missing (found : bool * bool) (g1_devices : list Device)
  : M (bool * bool) :=
  let '(left_found, right_found) := found in
  if (1 <=? length g1_devices)%nat && negb (left_found && right_found) then
    cfg <- gets config ;;
    let available_devices :=
      List.filter
        (fun d => negb (existsb (opt_string_eqb (Some (d_address d)))
                          [left_address cfg; right_address cfg]))
        g1_devices in
    p <- match available_devices with
         | d :: rest =>
             if negb left_found then
               modify_config (set_left_address (Some (d_address d))) ;;
               modify_config (set_left_name (d_name d)) ;;
               ret (true, rest)
             else ret (left_found, available_devices)
         | [] => ret (left_found, available_devices)
         end ;;
    let '(left_found', available_devices') := p in
    match available_devices' with
    | d :: _ =>
        if negb right_found then
          modify_config (set_right_address (Some (d_address d))) ;;
          modify_config (set_right_name (d_name d)) ;;
          ret (left_found', true)
        else ret (left_found', right_found)
    | [] => ret (left_found', right_found)
    end
  else ret found.

(** Step 2 and step 3 together: the active scan over the discovered
    devices. *)
Definition scan_available (found : bool * bool) (devices : list Device)
  : M (bool * bool) :=
  acc <- fold_m scan_available_step (fst found, snd found, []) devices ;;
  let '(left_found, right_found, g1_devices) := acc in
  scan_assign_missing (left_found, right_found) g1_devices.

Definition scan_for_glasses : M bool :=
  try_catch
    (set_connection_state SCANNING ;;
     connected_g1_devices <- _get_windows_connected_g1_devices ;;
     found <- fold_m scan_connected_step (false, false) connected_g1_devices ;;
     found <- (if negb (fst found && snd found) then
                 emit (EvDiscover 15000%Z) ;;
                 devices <- ask (w_discover w) ;;
                 scan_available found devices
               else ret found) ;;
     if negb (fst found && snd found) then
       set_connection_state DISCONNECTED ;;
       ret false
     else
       save ;;
       ret true)
    (fun e =>
       set_connection_state DISCONNECTED ;;
       ret false).

(** *** The coordinator *)

Definition connect_both : M (bool * bool) :=
  left_connected <- _connect_glass Left ;;
  right_connected <- _connect_glass Right ;;
  ret (left_connected, right_connected).

Definition clear_addresses : M unit :=
  modify_config (set_left_address None) ;;
  modify_config (set_right_address None) ;;
  save.

(** Strategy 4: [if flag and client: await client.disconnect();
    client = None], not guarded. *)
Definition drop_client (side : Side) (flag : bool) : M unit :=
  c <- gets (side_client side) ;;
  match c with
  | Some client =>
      if flag then client_disconnect client ;; set_side_client side None
      else ret tt
  | None => ret tt
  end.

(** Final evaluation: the same, inside [try: ... except: pass]. *)
Definition drop_client_quietly (side : Side) (flag : bool) : M unit :=
  try_catch (drop_client side flag) (fun e => ret tt).

(** Strategy 0: restore an address from the saved name. *)
Definition restore_from_names : M unit :=
  cfg <- gets config ;;
  when (negb (truthy (left_address cfg))
        && PyStr.contains "CCF7207288DB" (py_str (left_name cfg)))
       (modify_config (set_left_address (Some "CC:F7:20:72:88:DB"))) ;;
  cfg <- gets config ;;
  when (negb (truthy (right_address cfg))
        && PyStr.contains "DAD8C8AF5258" (py_str (right_name cfg)))
       (modify_config (set_right_address (Some "DA:D8:C8:AF:52:58"))).

Definition strategy1 : M (bool * bool) :=
  cfg <- gets config ;;
  if truthy (left_address cfg) && truthy (right_address cfg)
  then connect_both
  else ret (false, false).

Definition strategy2 (c : bool * bool) : M (bool * bool) :=
  if negb (fst c) && negb (snd c) then
    emit EvPairing ;;
    paired <- ask (w_pairing w) ;;
    if paired then connect_both else ret c
  else ret c.

Definition strategy3 (c : bool * bool) : M (bool * bool) :=
  if negb (fst c) && negb (snd c) then
    cfg <- gets config ;;
    let old_left := left_address cfg in
    let old_right := right_address cfg in
    clear_addresses ;;
    found <- scan_for_glasses ;;
    if found then connect_both
    else
      modify_config (set_left_address old_left) ;;
      modify_config (set_right_address old_right) ;;
      ret c
  else ret c.

Definition strategy4 (c : bool * bool) : M (bool * bool) :=
  if (fst c && negb (snd c)) || (snd c && negb (fst c)) then
    clear_addresses ;;
    drop_client Left (fst c) ;;
    drop_client Right (snd c) ;;
    found <- scan_for_glasses ;;
    if found then connect_both else ret c
  else ret c.

Definition evaluate (c : bool * bool) : M bool :=
  if fst c && snd c then
    emit EvCmdStart ;;
    ask (w_call w) ;;
    set_connection_state CONNECTED ;;
    emit EvSpawnMonitor ;;
    modify (with_monitoring_task true) ;;
    ret true
  else
    drop_client_quietly Left (fst c) ;;
    drop_client_quietly Right (snd c) ;;
    set_connection_state DISCONNECTED ;;
    ret false.

Definition connect_to_glasses : M bool :=
  try_catch
    (set_connection_state CONNECTING ;;
     restore_from_names ;;
     c <- strategy1 ;;
     c <- strategy2 c ;;
     c <- strategy3 c ;;
     c <- strategy4 c ;;
     evaluate c)
    (fun e =>
       set_connection_state DISCONNECTED ;;
       ret false).

(** The body of [for side in ['left', 'right']] of [disconnect]. *)
Definition disconnect_side (side : Side) : M unit :=
  c <- gets (side_client side) ;;
  match c with
  | Some client =>
      if c_connected client then
        client_disconnect client ;;
        set_side_client side None
      else ret tt
  | None => ret tt
  end.

Definition disconnect : M unit :=
  try_catch
    (modify (with_shutting_down true) ;;
     task <- gets monitoring_task ;;
     when task (emit EvCancelMonitor ;; modify (with_monitoring_task false)) ;;
     emit EvCmdStop ;;
     ask (w_call w) ;;
     disconnect_side Left ;;
     disconnect_side Right ;;
     set_connection_state DISCONNECTED)
    (fun e => ret tt).

Definition reconnect : M bool :=
  try_catch (disconnect ;; connect_to_glasses) (fun e => ret false).

(** *** Background loops and callbacks *)

(** [side.title()]. *)
Definition side_title (s : Side) : string :=
  match s with Left => "Left" | Right => "Right" end.

Definition record_error (msg : string) : M unit :=
  modify (fun st => with_last_error (Some msg)
                      (with_error_count (S (error_count st)) st)).

(** The body of [for side in ['left', 'right']] of the monitoring loop:
    [Some tt] returns from the loop function. *)
Definition monitor_check (side : Side) : M (option unit) :=
  sd <- gets shutting_down ;;
  if sd then ret (Some tt)
  else
    c <- gets (side_client side) ;;
    match c with
    | Some client =>
        when (negb (c_connected client))
             (record_error (side_title side ++ " glass disconnected")) ;;
        ret None
    | None => ret None
    end.

(** One pass of [while not self._shutting_down] (the flag was false):
    [true] when the function returned during the pass. *)
Definition monitor_pass : M bool :=
  try_catch
    (r <- for_each monitor_check [Left; Right] ;;
     match r with
     | Some _ => ret true
     | None => sleep 10000%Z ;; ret false
     end)
    (fun e =>
       sd <- gets shutting_down ;;
       when (negb sd) (record_error e) ;;
       sleep 10000%Z ;;
       ret false).

(** [_monitor_connection_quality], run for at most [fuel] passes:
    [Some tt] when the loop function has returned, [None] while it is
    still looping. *)
Fixpoint _monitor_connection_quality (fuel : nat) : M (option unit) :=
  match fuel with
  | O => ret None
  | S fuel' =>
      sd <- gets shutting_down ;;
      if sd then ret (Some tt)
      else
        returned <- monitor_pass ;;
        if returned then ret (Some tt)
        else _monitor_connection_quality fuel'
  end.

Definition start_monitoring : M unit :=
  task <- gets monitoring_task ;;
  when (negb task) (emit EvSpawnMonitor ;; modify (with_monitoring_task true)).

Definition stop_monitoring : M unit :=
  task <- gets monitoring_task ;;
  when task (emit EvCancelMonitor ;; modify (with_monitoring_task false)).

Definition heartbeat_frame (seq : Z) : list Z :=
  [0x25; 0x06; 0x00; seq; 0x04; seq]%Z.

(** [str(e)] of the [AttributeError] that looking up
    [self.send_command] raises. *)
Definition missing_send_command : string :=
  "'BLEManager' object has no attribute 'send_command'".

(** [self.send_command(client, data)]: [BLEManager] has no base class and
    defines no [send_command], so the attribute lookup raises
    [AttributeError] before anything is handed to the transport. *)
Definition send_command (side : Side) (data : list Z) : M unit :=
  raise missing_send_command.

(** One pass of [while True] of [_heartbeat_loop]: the local [seq] before
    and after.  The assignment to [seq] comes before every call that can
    raise, so it is kept when the handler runs. *)
Definition heartbeat_pass (seq : Z) : M Z :=
  l <- gets left_client ;;
  r <- gets right_client ;;
  match l, r with
  | Some _, Some _ =>
      let seq' := Z.land (seq + 1) 0xFF in
      let data := heartbeat_frame seq' in
      try_catch
        (send_command Left data ;;
         sleep 200%Z ;;
         send_command Right data ;;
         modify (fun st => with_last_heartbeat (Some (tick st)) st) ;;
         cfg <- gets config ;;
         sleep (heartbeat_interval cfg))
        (fun e =>
           record_error ("Heartbeat failed: " ++ e) ;;
           sleep 2000%Z) ;;
      ret seq'
  | _, _ => ret seq
  end.

(** [_heartbeat_loop] run for [passes] passes: the value of [seq] then. *)
Fixpoint heartbeat_from (seq : Z) (passes : nat) : M Z :=
  match passes with
  | O => ret seq
  | S n => seq' <- heartbeat_pass seq ;; heartbeat_from seq' n
  end.

Definition _heartbeat_loop (passes : nat) : M Z := heartbeat_from 0 passes.

(** The body of the attempt loop of [_handle_disconnect]. *)
Definition reconnect_attempt (side : Side) (attempt : nat) : M (option bool) :=
  sd <- gets shutting_down ;;
  if sd then ret (Some false)
  else
    try_catch
      (ok <- _connect_glass side ;;
       if ok then ret (Some true)
       else
         cfg <- gets config ;;
         sleep (reconnect_delay cfg) ;;
         ret None)
      (fun e => ret None).

Definition _handle_disconnect (side : Side) : M bool :=
  sd <- gets shutting_down ;;
  if sd then ret false
  else
    record_error (side_title side ++ " glass disconnected") ;;
    cfg <- gets config ;;
    r <- for_each (reconnect_attempt side) (range (reconnect_attempts cfg)) ;;
    match r with
    | Some b => ret b
    | None => ret false
    end.

End Manager.

(** *** Quality map and status snapshot *)

Definition _update_connection_quality (side : string) (new_rssi : option Z)
  (error : bool) : M unit :=
  modify (fun st =>
    let q0 := match connection_quality st !! side with
              | Some q => q
              | None => {| rssi := None; errors := 0 |}
              end in
    let q1 := match new_rssi with
              | Some r => {| rssi := Some r; errors := errors q0 |}
              | None => q0
              end in
    let q2 := if error then {| rssi := rssi q1; errors := S (errors q1) |}
              else q1 in
    with_connection_quality (<[side := q2]> (connection_quality st)) st).



Definition client_is_connected (c : option Client) : bool :=
  match c with
  | Some client => c_connected client
  | None => false
  end.



(** [set_silent_mode]; passing the new snapshot on to the state manager
    is outside the manager. *)
Definition set_silent_mode (enabled : bool) : M unit :=
  modify (with_silent_mode enabled).

(** [BLEManager.__init__], with the configuration the connector loaded;
    the connection state starts as Disconnected and the quality map
    empty. *)
Definition init (cfg : Config) : St :=
  {| config := cfg; persisted := cfg; left_client := None;
     right_client := None; conn := DISCONNECTED; conn_log := [];
     shutting_down := false; monitoring_task := false; error_count := 0;
     last_error := None; last_heartbeat := None; silent_mode := false;
     connection_quality := ∅; events := []; tick := 0 |}.

(** ** Vocabulary for statements about runs *)

(** [keeps R m]: whatever the outcome, a run of [m] relates the state
    before to the state after by [R]. *)
Definition keeps {A} (R : relation St) (m : M A) : Prop :=
  forall st, R st (snd (m st)).

(** [returns m]: a run of [m] never ends in an exception. *)
Definition returns {A} (m : M A) : Prop :=
  forall st, exists a, fst (m st) = Ret a.

(** [same f]: the field [f] is left as it was. *)
Definition same {A} (f : St -> A) : relation St := fun st st' => f st' = f st.

Definition both (R1 R2 : relation St) : relation St :=
  fun st st' => R1 st st' /\ R2 st st'.

(** The manager's own bookkeeping: shutdown flag, error counter and
    message, heartbeat time, silent mode, quality map. *)
Definition bookkeeping : relation St :=
  both (same shutting_down)
    (both (same error_count)
       (both (same last_error)
          (both (same last_heartbeat)
             (both (same silent_mode) (same connection_quality))))).

(** The connection state and its log. *)
Definition conn_kept : relation St := both (same conn) (same conn_log).

(** The configuration and the persisted address store. *)
Definition config_kept : relation St := both (same config) (same persisted).

(** What a per-side connect leaves alone: all but the two clients, the
    events and the call counter. *)
Definition link_only : relation St :=
  both bookkeeping (both conn_kept (both config_kept (same monitoring_task))).

(** Once set, the flag stays set. *)
Definition flag_up : relation St :=
  fun st st' => shutting_down st = true -> shutting_down st' = true.

(** The operations a caller, the BLE stack or the scheduler can start. *)
Inductive Op : Type :=
| OpScan
| OpConnect
| OpDisconnect
| OpReconnect
| OpConnectGlass (s : Side)
| OpHandleDisconnect (s : Side)
| OpMonitor (fuel : nat)
| OpHeartbeat (passes : nat)
| OpStartMonitoring
| OpStopMonitoring
| OpUpdateQuality (side : string) (new_rssi : option Z) (error : bool)
| OpSetSilentMode (enabled : bool).

Definition run_op (w : World) (op : Op) (st : St) : St :=
  match op with
  | OpScan => snd (scan_for_glasses w st)
  | OpConnect => snd (connect_to_glasses w st)
  | OpDisconnect => snd (disconnect w st)
  | OpReconnect => snd (reconnect w st)
  | OpConnectGlass s => snd (_connect_glass w s st)
  | OpHandleDisconnect s => snd (_handle_disconnect w s st)
  | OpMonitor fuel => snd (_monitor_connection_quality fuel st)
  | OpHeartbeat passes => snd (_heartbeat_loop passes st)
  | OpStartMonitoring => snd (start_monitoring st)
  | OpStopMonitoring => snd (stop_monitoring st)
  | OpUpdateQuality side r e => snd (_update_connection_quality side r e st)
  | OpSetSilentMode b => snd (set_silent_mode b st)
  end.

Definition run_ops (w : World) (ops : list Op) (st : St) : St :=
  fold_left (fun st op => run_op w op st) ops st.

(** ** Concrete configurations and worlds *)

Module Scenarios.

(** Both addresses are stored; two attempts per connect. *)
Definition stored : Config :=
  {| left_address := Some "AA:AA:AA:AA:AA:01";
     right_address := Some "BB:BB:BB:BB:BB:02";
     left_name := Some "Even G1_7_L_0A1B2C";
     right_name := Some "Even G1_7_R_3D4E5F";
     reconnect_attempts := 2; reconnect_delay := 2000;
     connection_timeout := 10000; heartbeat_interval := 5000 |}.

(** A first start: nothing is stored. *)
Definition fresh : Config :=
  {| left_address := None; right_address := None;
     left_name := None; right_name := None;
     reconnect_attempts := 2; reconnect_delay := 2000;
     connection_timeout := 10000; heartbeat_interval := 5000 |}.

(** Nothing answers: every open times out, PowerShell fails, the radio
    scan finds no device, pairing fails; calls made for their effect
    succeed. *)
Definition silence : World :=
  {| w_open := fun _ => Exc "timeout";
     w_lookup := fun _ => Ret LkOk;
     w_call := fun _ => Ret tt;
     w_pairing := fun _ => Ret false;
     w_discover := fun _ => Ret [];
     w_subprocess := fun _ => Ret {| returncode := 1; stdout := "" |} |}.


(** The radio scan sees two lenses that both carry the left-side pattern,
    and Windows reports nothing. *)
Definition two_left_lenses : World :=
  {| w_open := fun _ => Exc "timeout";
     w_lookup := fun _ => Ret LkOk;
     w_call := fun _ => Ret tt;
     w_pairing := fun _ => Ret false;
     w_discover := fun _ =>
       Ret [ {| d_name := Some "Even G1_7_L_0A1B2C";
                d_address := "AA:AA:AA:AA:AA:01" |};
             {| d_name := Some "Even G1_9_L_77C0DE";
                d_address := "CC:CC:CC:CC:CC:03" |} ];
     w_subprocess := fun _ => Ret {| returncode := 1; stdout := "" |} |}.

(** The radio scan sees one device with a product name and no side
    pattern. *)
Definition one_plain_g1 : World :=
  {| w_open := fun _ => Exc "timeout";
     w_lookup := fun _ => Ret LkOk;
     w_call := fun _ => Ret tt;
     w_pairing := fun _ => Ret false;
     w_discover := fun _ =>
       Ret [ {| d_name := Some "G1 glasses";
                d_address := "DD:DD:DD:DD:DD:04" |} ];
     w_subprocess := fun _ => Ret {| returncode := 1; stdout := "" |} |}.

(** The output of both PowerShell listings when the two lenses are paired
    with Windows. *)
Definition paired_listing : string :=
  "Name                 DeviceID" ++ String PyStr.newline
  ("----                 --------" ++ String PyStr.newline
  ("Even G1_7_L_0A1B2C   BTHLE\DEV_1" ++ String PyStr.newline
  ("Even G1_7_R_3D4E5F   BTHLE\DEV_2" ++ String PyStr.newline ""))).

(** Windows lists both lenses; no address is stored for them. *)
Definition paired_with_windows : World :=
  {| w_open := fun _ => Exc "timeout";
     w_lookup := fun _ => Ret LkOk;
     w_call := fun _ => Ret tt;
     w_pairing := fun _ => Ret false;
     w_discover := fun _ => Ret [];
     w_subprocess := fun _ =>
       Ret {| returncode := 0; stdout := paired_listing |} |}.

(** The left lens answers the first open, the right lens never does, and
    no scan finds anything. *)
Definition right_lens_dead : World :=
  {| w_open := fun t => if (t =? 0)%nat then Ret true else Exc "timeout";
     w_lookup := fun _ => Ret LkOk;
     w_call := fun _ => Ret tt;
     w_pairing := fun _ => Ret false;
     w_discover := fun _ => Ret [];
     w_subprocess := fun _ => Ret {| returncode := 1; stdout := "" |} |}.

(** The same, and closing the left link (call 6 of the run) fails. *)
Definition right_lens_dead_close_fails : World :=
  {| w_open := fun t => if (t =? 0)%nat then Ret true else Exc "timeout";
     w_lookup := fun _ => Ret LkOk;
     w_call := fun t => if (t =? 6)%nat then Exc "disconnect failed"
                        else Ret tt;
     w_pairing := fun _ => Ret false;
     w_discover := fun _ => Ret [];
     w_subprocess := fun _ => Ret {| returncode := 1; stdout := "" |} |}.

(** The same, and saving the configuration (call 5 of the run) fails. *)
Definition right_lens_dead_save_fails : World :=
  {| w_open := fun t => if (t =? 0)%nat then Ret true else Exc "timeout";
     w_lookup := fun _ => Ret LkOk;
     w_call := fun t => if (t =? 5)%nat then Exc "disk full" else Ret tt;
     w_pairing := fun _ => Ret false;
     w_discover := fun _ => Ret [];
     w_subprocess := fun _ => Ret {| returncode := 1; stdout := "" |} |}.

(** Both lenses are in range and answer every call. *)
Definition lenses_in_range : World :=
  {| w_open := fun _ => Ret true;
     w_lookup := fun _ => Ret LkOk;
     w_call := fun _ => Ret tt;
     w_pairing := fun _ => Ret false;
     w_discover := fun _ =>
       Ret [ {| d_name := Some "Even G1_7_L_0A1B2C";
                d_address := "AA:AA:AA:AA:AA:01" |};
             {| d_name := Some "Even G1_7_R_3D4E5F";
                d_address := "BB:BB:BB:BB:BB:02" |} ];
     w_subprocess := fun _ => Ret {| returncode := 1; stdout := "" |} |}.

(** Both links are up. *)
Definition linked : St :=
  with_left_client
    (Some {| c_address := "AA:AA:AA:AA:AA:01"; c_callback := Some Left;
             c_connected := true |})
    (with_right_client
       (Some {| c_address := "BB:BB:BB:BB:BB:02"; c_callback := Some Right;
                c_connected := true |})
       (init stored)).

(** The manager after a deliberate [disconnect]. *)
Definition torn_down : St := snd (disconnect silence (init stored)).

End Scenarios.

(** The frames handed to the transport, newest first, with the side
    each went to. *)
Definition sent (evs : list Event) : list (Side * list Z) :=
  flat_map (fun e => match e with
                     | EvSend s frame => [(s, frame)]
                     | _ => []
                     end) evs.

(** What round [i] of the heartbeat is meant to put on the air. *)
Definition round_frames (i : nat) : list (Side * list Z) :=
  let seq := (Z.of_nat i mod 256)%Z in
  [(Left, [0x25; 0x06; 0x00; seq; 0x04; seq]%Z);
   (Right, [0x25; 0x06; 0x00; seq; 0x04; seq]%Z)].

Definition is_attempt (e : Event) : bool :=
  match e with
  | EvAttempt _ _ => true
  | _ => false
  end.

(** [retry_shape side delay i k chron]: the events [chron], oldest first,
    are those of [k] attempts of [side] numbered from [i]; each attempt
    is its log line followed by events of the attempt itself, and every
    attempt but the last ends with the sleep of [delay]. *)
Inductive retry_shape (side : Side) (delay : Duration)
  : nat -> nat -> list Event -> Prop :=
| shape_none i : retry_shape side delay i 0 []
| shape_last i body :
    Forall (fun e => is_attempt e = false) body ->
    retry_shape side delay i 1 (EvAttempt side i :: body)
| shape_more i k body rest :
    Forall (fun e => is_attempt e = false) body ->
    retry_shape side delay (S i) (S k) rest ->
    retry_shape side delay i (S (S k))
      (EvAttempt side i :: body ++ EvSleep delay :: rest).

(** A run adds events, none of them the log line of an attempt, and
    leaves the configuration alone. *)
Definition quiet_events : relation St :=
  fun st st' =>
    config st' = config st
    /\ exists new, events st' = (new ++ events st)%list
                   /\ Forall (fun e => is_attempt e = false) new.

(** The devices the active scan looks at: named, with a product pattern
    in the name. *)
Definition is_g1_device (d : Device) : bool :=
  match d_name d with
  | Some name => PyStr.nonempty name && is_g1_name name
  | None => false
  end.

(** The transitions the specification allows: Disconnected to Scanning to
    Connecting to Connected, and any state back to Disconnected. *)
Definition spec_transition (t : ConnectionState * ConnectionState) : bool :=
  match t with
  | (DISCONNECTED, SCANNING) | (SCANNING, CONNECTING)
  | (CONNECTING, CONNECTED) => true
  | (_, DISCONNECTED) => true
  | _ => false
  end.

(** The transitions of the code: Disconnected, Scanning and Connecting are
    entered from any state, Connected from Connecting or Scanning. *)
Definition code_transition (t : ConnectionState * ConnectionState) : bool :=
  match t with
  | (_, DISCONNECTED) | (_, SCANNING) | (_, CONNECTING) => true
  | (CONNECTING, CONNECTED) | (SCANNING, CONNECTED) => true
  | (_, CONNECTED) => false
  end.

(** [hoare P m Q E]: from a state in [P], a run of [m] that returns [a]
    ends in [Q a], and a run that raises ends in [E]. *)
Definition hoare {A} (P : St -> Prop) (m : M A) (Q : A -> St -> Prop)
  (E : St -> Prop) : Prop :=
  forall st, P st ->
    match m st with
    | (Ret a, st') => Q a st'
    | (Exc _, st') => E st'
    end.

(** The log of state writes is [log0] extended by transitions of the
    code. *)
Definition grown (log0 : list (ConnectionState * ConnectionState)) (st : St)
  : Prop :=
  exists new, conn_log st = (new ++ log0)%list
              /\ forallb code_transition new = true.

(** The same, with the current state in [S]. *)
Definition at_conn (S : ConnectionState -> Prop)
  (log0 : list (ConnectionState * ConnectionState)) (st : St) : Prop :=
  grown log0 st /\ S (conn st).

(** A run only adds transitions of the code to the log. *)
Definition log_grows : relation St :=
  fun st st' => grown (conn_log st) st'.

(** In Connecting or Scanning: the states from which the code enters
    Connected. *)
Definition connecting_or_scanning (s : ConnectionState) : Prop :=
  s = CONNECTING \/ s = SCANNING.

(** The operations that write the connection state. *)
Definition writes_state (op : Op) : bool :=
  match op with
  | OpScan | OpConnect | OpDisconnect | OpReconnect => true
  | _ => false
  end.

(** The link of a side is up: a client is stored and connected. *)
Definition up (s : Side) (st : St) : Prop :=
  client_is_connected (side_client s st) = true.

(** The link of a side is closed: no client is stored, or the stored one
    is not connected. *)
Definition closed (s : Side) (st : St) : Prop :=
  client_is_connected (side_client s st) = false.

(** The two stored clients are left as they were. *)
Definition clients_kept : relation St :=
  both (same left_client) (same right_client).

(** The stored clients are [l] and [r]. *)
Definition links (l r : option Client) (st : St) : Prop :=
  left_client st = l /\ right_client st = r.

(** The local flags of [connect_to_glasses] agree with the links. *)
Definition in_sync (c : bool * bool) (st : St) : Prop :=
  client_is_connected (left_client st) = fst c
  /\ client_is_connected (right_client st) = snd c.

(** A world in which the calls made for their effect (closing a link,
    starting notifications, saving, starting the command layer) and the
    pairing check do not raise. *)
Definition calm (w : World) : Prop :=
  (forall t, w_call w t = Ret tt)
  /\ (forall t, exists b, w_pairing w t = Ret b).

(** ** Vocabulary for further properties *)

(** A lookup that found the service and both characteristics. *)
Definition lookup_ok (o : Outcome Lookup) : bool :=
  match o with
  | Ret LkOk => true
  | _ => false
  end.

Definition raised {A} (o : Outcome A) : bool :=
  match o with
  | Exc _ => true
  | Ret _ => false
  end.

(** The sleeps among some events. *)
Definition sleeps (evs : list Event) : list Duration :=
  flat_map (fun e => match e with
                     | EvSleep d => [d]
                     | _ => []
                     end) evs.

(** The transport opens among some events. *)
Definition opens (evs : list Event) : list Event :=
  List.filter (fun e => match e with
                        | EvOpen _ _ _ | EvOpenFallback _ _ => true
                        | _ => false
                        end) evs.

Definition other_side (s : Side) : Side :=
  match s with Left => Right | Right => Left end.

(** What an operation scoped to one side leaves alone: the client of the
    other side, the configuration, the persisted store and the connection
    state with its log. *)
Definition other_side_kept (s : Side) : relation St :=
  both (same (side_client (other_side s)))
    (both config_kept conn_kept).

(** Worlds and states for the further properties. *)
Module MoreScenarios.

(** The direct open of the first attempt fails with a "not found" error;
    every later open connects. *)
Definition found_on_fallback : World :=
  {| w_open := fun t => if (t =? 0)%nat
                        then Exc "Device with address was not found"
                        else Ret true;
     w_lookup := fun _ => Ret LkOk;
     w_call := fun _ => Ret tt;
     w_pairing := fun _ => Ret false;
     w_discover := fun _ => Ret [];
     w_subprocess := fun _ => Ret {| returncode := 1; stdout := "" |} |}.

(** Everything answers, but the command layer cannot be stopped. *)
Definition stop_fails : World :=
  {| w_open := fun _ => Ret true;
     w_lookup := fun _ => Ret LkOk;
     w_call := fun _ => Exc "command manager is not running";
     w_pairing := fun _ => Ret false;
     w_discover := fun _ => Ret [];
     w_subprocess := fun _ => Ret {| returncode := 1; stdout := "" |} |}.

(** No attempt is configured. *)
Definition no_attempts : Config :=
  {| left_address := Some "AA:AA:AA:AA:AA:01";
     right_address := Some "BB:BB:BB:BB:BB:02";
     left_name := None; right_name := None;
     reconnect_attempts := 0; reconnect_delay := 2000;
     connection_timeout := 10000; heartbeat_interval := 5000 |}.

End MoreScenarios.

(** The outcome of an operation that answers with a boolean. *)
Definition answered (r : Outcome bool * St) (yes no : St -> Prop) : Prop :=
  match fst r with
  | Ret true => yes (snd r)
  | Ret false => no (snd r)
  | Exc _ => False
  end.

(** No attempt is configured. *)
Definition no_attempt_configured (st : St) : Prop :=
  reconnect_attempts (config st) = 0.

(** A stored client whose link has dropped. *)
Definition dropped (s : Side) (st : St) : bool :=
  match side_client s st with
  | Some client => negb (c_connected client)
  | None => false
  end.

(** How many of the two sides have a dropped link. *)
Definition dropped_count (st : St) : nat :=
  (if dropped Left st then 1 else 0) + (if dropped Right st then 1 else 0).

(** How many attempt log lines there are among some events. *)
Definition attempts_in (evs : list Event) : nat :=
  length (List.filter is_attempt evs).

(** The quality record the map holds for a side; a side that was never
    updated reads as the record an update would start from. *)
Definition quality_of (side : string) (st : St) : Quality :=
  match connection_quality st !! side with
  | Some q => q
  | None => {| rssi := None; errors := 0 |}
  end.

(** A call of [_update_connection_quality]: side, rssi, error. *)
Definition QualityUpdate : Type := string * option Z * bool.

Definition run_updates (us : list QualityUpdate) : M unit :=
  fold_right
    (fun u k => let '(side, new_rssi, error) := u in
                _update_connection_quality side new_rssi error ;; k)
    (ret tt) us.

(** The updates of one side that carry the error flag. *)
Definition errors_for (side : string) (us : list QualityUpdate) : nat :=
  length (List.filter
            (fun u => let '(s, _, error) := u in
                      (if decide (s = side) then true else false) && error)
            us).

(** The last signal strength the updates give a side, [r0] if none. *)
Definition last_rssi (side : string) (r0 : option Z)
  (us : list QualityUpdate) : option Z :=
  fold_left
    (fun r u => let '(s, new_rssi, _) := u in
                if decide (s = side)
                then match new_rssi with Some x => Some x | None => r end
                else r)
    us r0.

(** Both clients are stored; the left link has dropped. *)
Definition left_link_dropped : St :=
  with_left_client
    (Some {| c_address := "AA:AA:AA:AA:AA:01"; c_callback := Some Left;
             c_connected := false |})
    Scenarios.linked.

(** The links closed among some events. *)
Definition closes (evs : list Event) : list Event :=
  List.filter (fun e => match e with
                        | EvClose _ => true
                        | _ => false
                        end) evs.

(** Every open connects and verifies, every other call raises: the
    notifications of a link cannot be started. *)
Definition notify_fails : World :=
  {| w_open := fun _ => Ret true;
     w_lookup := fun _ => Ret LkOk;
     w_call := fun _ => Exc "notify failed";
     w_pairing := fun _ => Ret false;
     w_discover := fun _ => Ret [];
     w_subprocess := fun _ => Ret {| returncode := 1; stdout := "" |} |}.

(** The monitor tasks created and cancelled among some events. *)
Definition spawns (evs : list Event) : nat :=
  length (List.filter (fun e => match e with
                                | EvSpawnMonitor => true
                                | _ => false
                                end) evs).

Definition cancels (evs : list Event) : nat :=
  length (List.filter (fun e => match e with
                                | EvCancelMonitor => true
                                | _ => false
                                end) evs).

(** The string holds ASCII characters only (code points below 128),
    where [PyStr.upper] and [PyStr.lower] are Python's [str.upper] and
    [str.lower]. *)
Definition ascii_only (s : string) : bool :=
  forallb (fun c => (nat_of_ascii c <? 128)%nat) (list_ascii_of_string s).

(** ** Reasoning about runs *)

Section Structural.

Context (R : relation St) `{!PreOrder R}.

Lemma keeps_ret {A} (a : A) : keeps R (ret a).
Proof. intros st. reflexivity. Qed.

Lemma keeps_raise {A} e : keeps R (@raise A e).
Proof. intros st. reflexivity. Qed.

Lemma keeps_gets {A} (f : St -> A) : keeps R (gets f).
Proof. intros st. reflexivity. Qed.

Lemma keeps_bind {A B} (m : M A) (k : A -> M B) :
  keeps R m -> (forall a, keeps R (k a)) -> keeps R (bind m k).
Proof.
  intros Hm Hk st. unfold bind. specialize (Hm st).
  destruct (m st) as [[a | e] st1]; simpl in *; [| exact Hm].
  transitivity st1; [exact Hm | apply Hk].
Qed.

Lemma keeps_try {A} (m : M A) (h : string -> M A) :
  keeps R m -> (forall e, keeps R (h e)) -> keeps R (try_catch m h).
Proof.
  intros Hm Hh st. unfold try_catch. specialize (Hm st).
  destruct (m st) as [[a | e] st1]; simpl in *; [exact Hm |].
  transitivity st1; [exact Hm | apply Hh].
Qed.

Lemma keeps_when (b : bool) (m : M unit) : keeps R m -> keeps R (when b m).
Proof. intros Hm. destruct b; simpl; [exact Hm | apply keeps_ret]. Qed.

Lemma keeps_for_each {I A} (body : I -> M (option A)) (idx : list I) :
  (forall i, keeps R (body i)) -> keeps R (for_each body idx).
Proof.
  intros Hb. induction idx as [| i rest IH]; simpl.
  - apply keeps_ret.
  - apply keeps_bind; [apply Hb |].
    intros [a |]; [apply keeps_ret | exact IH].
Qed.

Lemma keeps_fold_m {A B} (f : A -> B -> M A) (l : list B) :
  (forall a b, keeps R (f a b)) -> forall acc, keeps R (fold_m f acc l).
Proof.
  intros Hf. induction l as [| x rest IH]; intros acc; simpl.
  - apply keeps_ret.
  - apply keeps_bind; [apply Hf | intros a; apply IH].
Qed.

Lemma keeps_modify (f : St -> St) :
  (forall st, R st (f st)) -> keeps R (modify f).
Proof. intros Hf st. apply Hf. Qed.

Lemma keeps_ask {A} (f : nat -> Outcome A) :
  (forall st, R st (with_tick (S (tick st)) st)) -> keeps R (ask f).
Proof. intros Hf st. apply Hf. Qed.

End Structural.

Lemma returns_ret {A} (a : A) : returns (ret a).
Proof. intros st. exists a. reflexivity. Qed.

Lemma returns_bind {A B} (m : M A) (k : A -> M B) :
  returns m -> (forall a, returns (k a)) -> returns (bind m k).
Proof.
  intros Hm Hk st. unfold bind. destruct (Hm st) as [a Ha].
  destruct (m st) as [[a' | e] st1]; simpl in Ha; [| discriminate].
  apply Hk.
Qed.

Lemma returns_try {A} (m : M A) (h : string -> M A) :
  (forall e, returns (h e)) -> returns (try_catch m h).
Proof.
  intros Hh st. unfold try_catch.
  destruct (m st) as [[a | e] st1]; [exists a; reflexivity | apply Hh].
Qed.

Lemma returns_modify (f : St -> St) : returns (modify f).
Proof. intros st. exists tt. reflexivity. Qed.

Lemma returns_gets {A} (f : St -> A) : returns (gets f).
Proof. intros st. exists (f st). reflexivity. Qed.

Lemma returns_when (b : bool) (m : M unit) : returns m -> returns (when b m).
Proof. intros Hm. destruct b; simpl; [exact Hm | apply returns_ret]. Qed.

Lemma bind_gets {A B} (f : St -> A) (k : A -> M B) st :
  bind (gets f) k st = k (f st) st.
Proof. reflexivity. Qed.

Lemma bind_modify {B} (f : St -> St) (k : unit -> M B) st :
  bind (modify f) k st = k tt (f st).
Proof. reflexivity. Qed.

(** *** Pre- and postconditions *)

Section HoareRules.

Context {A B : Type}.

Lemma hoare_ret (P : St -> Prop) (a : A) (Q : A -> St -> Prop) E :
  (forall st, P st -> Q a st) -> hoare P (ret a) Q E.
Proof. intros H st HP. simpl. apply H, HP. Qed.

Lemma hoare_bind (P : St -> Prop) (m : M A) (k : A -> M B)
  (Q : A -> St -> Prop) (Q' : B -> St -> Prop) E :
  hoare P m Q E -> (forall a, hoare (Q a) (k a) Q' E) ->
  hoare P (bind m k) Q' E.
Proof.
  intros Hm Hk st HP. unfold bind. specialize (Hm st HP).
  destruct (m st) as [[a | e] st1]; [apply Hk, Hm | exact Hm].
Qed.

Lemma hoare_try (P : St -> Prop) (m : M A) (h : string -> M A)
  (Q : A -> St -> Prop) E' E :
  hoare P m Q E' -> (forall e, hoare E' (h e) Q E) ->
  hoare P (try_catch m h) Q E.
Proof.
  intros Hm Hh st HP. unfold try_catch. specialize (Hm st HP).
  destruct (m st) as [[a | e] st1]; [exact Hm | apply Hh, Hm].
Qed.

(** A run that keeps [R] carries over whatever [R] carries over. *)
Lemma hoare_keeps (R : relation St) (P Q E : St -> Prop) (m : M A) :
  keeps R m ->
  (forall st st', P st -> R st st' -> Q st') ->
  (forall st st', P st -> R st st' -> E st') ->
  hoare P m (fun _ => Q) E.
Proof.
  intros Hk HQ HE st HP. specialize (Hk st).
  destruct (m st) as [[a | e] st1]; simpl in Hk;
    [eapply HQ | eapply HE]; eassumption.
Qed.

Lemma hoare_any (P : St -> Prop) (m : M A) :
  hoare P m (fun _ _ => True) (fun _ => True).
Proof. intros st _. destruct (m st) as [[a | e] st1]; exact I. Qed.

Lemma hoare_total (P : St -> Prop) (m : M A) E :
  returns m -> hoare P m (fun _ _ => True) E.
Proof.
  intros Hr st _. destruct (Hr st) as [a Ha].
  destruct (m st) as [[a' | e] st1]; [exact I | discriminate].
Qed.

Lemma hoare_pre (P P' : St -> Prop) (m : M A) (Q : A -> St -> Prop) E :
  (forall st, P' st -> P st) -> hoare P m Q E -> hoare P' m Q E.
Proof. intros HP Hm st H. apply Hm, HP, H. Qed.

Lemma hoare_post (P : St -> Prop) (m : M A) (Q Q' : A -> St -> Prop) E :
  (forall a st, Q a st -> Q' a st) -> hoare P m Q E -> hoare P m Q' E.
Proof.
  intros HQ Hm st H. specialize (Hm st H).
  destruct (m st) as [[a | e] st1]; [apply HQ, Hm | exact Hm].
Qed.

Lemma hoare_returns (P : St -> Prop) (m : M A) (Q : A -> St -> Prop) E :
  hoare P m Q (fun _ => False) -> hoare P m Q E.
Proof.
  intros Hm st H. specialize (Hm st H).
  destruct (m st) as [[a | e] st1]; [exact Hm | destruct Hm].
Qed.

End HoareRules.

Create HintDb bm_ops.
Create HintDb bm_keeps.

#[global] Hint Unfold emit sleep save client_disconnect verify_attempt
  _verify_connection open_client retry_sleep attempt_body attempt_failed
  connect_attempt _connect_glass
  set_side_client modify_config record_error send_command range
  : bm_ops.

(** Decompose a goal [keeps R m] along the structure of [m]; what is left
    are the state updates of [m], as goals [R st (f st)]. *)
Ltac keeps_step :=
  match goal with
  | |- keeps _ (bind _ _) => apply keeps_bind; [typeclasses eauto | |]
  | |- keeps _ (try_catch _ _) => apply keeps_try; [typeclasses eauto | |]
  | |- keeps _ (ret _) => apply keeps_ret; typeclasses eauto
  | |- keeps _ (raise _) => apply keeps_raise; typeclasses eauto
  | |- keeps _ (gets _) => apply keeps_gets; typeclasses eauto
  | |- keeps _ (when _ _) => apply keeps_when; [typeclasses eauto |]
  | |- keeps _ (for_each _ _) => apply keeps_for_each; [typeclasses eauto |]
  | |- keeps _ (fold_m _ _ _) => apply keeps_fold_m; [typeclasses eauto |]
  | |- keeps _ (modify _) => apply keeps_modify
  | |- keeps _ (ask _) => apply keeps_ask
  | |- keeps _ (if ?b then _ else _) => destruct b
  | |- keeps _ (match ?x with _ => _ end) => destruct x
  | |- keeps _ (let '_ := ?x in _) => destruct x
  | |- forall _, _ => intro
  | |- keeps _ _ => solve [eauto with bm_keeps]
  | |- keeps _ _ => progress autounfold with bm_ops
  end.

Ltac keeps_tac := repeat keeps_step.

(** *** Relations between the state before and after a run *)

#[global] Instance same_preorder {A} (f : St -> A) : PreOrder (same f).
Proof.
  split.
  - intros st. reflexivity.
  - intros a b c Hab Hbc. unfold same in *. congruence.
Qed.

#[global] Instance both_preorder (R1 R2 : relation St)
  `{!PreOrder R1} `{!PreOrder R2} : PreOrder (both R1 R2).
Proof.
  split.
  - intros st. split; reflexivity.
  - intros a b c [H1 H2] [H3 H4]. split; etransitivity; eassumption.
Qed.

Ltac field_kept :=
  intros;
  repeat match goal with
         | |- context [match ?s with Left => _ | Right => _ end] => destruct s
         end;
  unfold link_only, bookkeeping, conn_kept, config_kept, both, same;
  cbn; repeat split; reflexivity.

Ltac keeps_auto := keeps_tac; try field_kept.

Section ManagerFrames.

Variable w : World.

Lemma _verify_connection_link c s : keeps link_only (_verify_connection w c s).
Proof. keeps_auto. Qed.

Lemma _connect_glass_link s : keeps link_only (_connect_glass w s).
Proof. keeps_auto. Qed.

Lemma _connect_glass_returns s : returns (_connect_glass w s).
Proof. apply returns_try. intros e. apply returns_ret. Qed.

End ManagerFrames.

(** *** The shutdown flag *)

#[global] Instance flag_up_preorder : PreOrder flag_up.
Proof.
  split.
  - intros st H. exact H.
  - intros a b c Hab Hbc H. apply Hbc, Hab, H.
Qed.

Ltac flag_kept :=
  intros;
  repeat match goal with
         | |- context [match ?s with Left => _ | Right => _ end] => destruct s
         end;
  unfold flag_up; cbn; auto.

#[global] Hint Unfold _get_windows_connected_g1_devices scan_connected_step
  scan_available_step scan_assign_missing scan_available scan_for_glasses
  connect_both clear_addresses drop_client drop_client_quietly
  restore_from_names strategy1 strategy2 strategy3 strategy4 evaluate
  connect_to_glasses disconnect_side disconnect reconnect monitor_check
  monitor_pass start_monitoring stop_monitoring heartbeat_pass
  reconnect_attempt _handle_disconnect set_connection_state
  _update_connection_quality set_silent_mode : bm_ops.

Section ShutdownFlag.

Variable w : World.

Lemma scan_for_glasses_flag : keeps flag_up (scan_for_glasses w).
Proof. keeps_tac; flag_kept. Qed.

Lemma connect_to_glasses_flag : keeps flag_up (connect_to_glasses w).
Proof. keeps_tac; flag_kept. Qed.

Lemma disconnect_flag : keeps flag_up (disconnect w).
Proof. keeps_tac; flag_kept. Qed.

Lemma reconnect_flag : keeps flag_up (reconnect w).
Proof. keeps_tac; flag_kept. Qed.

Lemma _connect_glass_flag s : keeps flag_up (_connect_glass w s).
Proof. keeps_tac; flag_kept. Qed.

Lemma _handle_disconnect_flag s : keeps flag_up (_handle_disconnect w s).
Proof. keeps_tac; flag_kept. Qed.

Lemma _monitor_connection_quality_flag fuel :
  keeps flag_up (_monitor_connection_quality fuel).
Proof.
  induction fuel as [| fuel IH]; simpl; [apply keeps_ret; typeclasses eauto |].
  keeps_tac; flag_kept.
Qed.

Lemma heartbeat_from_flag passes :
  forall seq, keeps flag_up (heartbeat_from seq passes).
Proof.
  induction passes as [| n IH]; intros seq; simpl.
  - apply keeps_ret; typeclasses eauto.
  - apply keeps_bind; [typeclasses eauto | | intros a; apply IH].
    keeps_tac; flag_kept.
Qed.

(** [disconnect] sets the flag first, whatever happens next. *)
Lemma disconnect_sets_flag st : shutting_down (snd (disconnect w st)) = true.
Proof.
  unfold disconnect, try_catch.
  set (rest := bind (gets monitoring_task) _).
  change (bind (modify (with_shutting_down true)) (fun _ => rest) st)
    with (rest (with_shutting_down true st)).
  assert (Hrest : keeps flag_up rest) by (subst rest; keeps_tac; flag_kept).
  specialize (Hrest (with_shutting_down true st)).
  destruct (rest (with_shutting_down true st)) as [[a | e] st1];
    simpl in *; apply Hrest; reflexivity.
Qed.

Lemma disconnect_returns : returns (disconnect w).
Proof. apply returns_try. intros e. apply returns_ret. Qed.

Lemma reconnect_sets_flag st : shutting_down (snd (reconnect w st)) = true.
Proof.
  unfold reconnect, try_catch, bind.
  pose proof (disconnect_sets_flag st) as Hd.
  destruct (disconnect_returns st) as [a Ha].
  destruct (disconnect w st) as [[a' | e] st1]; simpl in *; [| discriminate].
  pose proof (connect_to_glasses_flag st1 Hd) as Hc.
  destruct (connect_to_glasses w st1) as [[b | e] st2]; simpl in *; exact Hc.
Qed.

End ShutdownFlag.

Lemma run_op_flag w op st : flag_up st (run_op w op st).
Proof.
  destruct op; simpl.
  - apply scan_for_glasses_flag.
  - apply connect_to_glasses_flag.
  - apply disconnect_flag.
  - apply reconnect_flag.
  - apply _connect_glass_flag.
  - apply _handle_disconnect_flag.
  - apply _monitor_connection_quality_flag.
  - apply heartbeat_from_flag.
  - assert (H : keeps flag_up start_monitoring) by (keeps_tac; flag_kept).
    apply H.
  - assert (H : keeps flag_up stop_monitoring) by (keeps_tac; flag_kept).
    apply H.
  - assert (H : keeps flag_up (_update_connection_quality side new_rssi error))
      by (keeps_tac; flag_kept).
    apply H.
  - assert (H : keeps flag_up (set_silent_mode enabled))
      by (keeps_tac; flag_kept).
    apply H.
Qed.

Lemma run_ops_flag w ops : forall st, flag_up st (run_ops w ops st).
Proof.
  induction ops as [| op rest IH]; intros st; simpl.
  - reflexivity.
  - transitivity (run_op w op st); [apply run_op_flag | apply IH].
Qed.

(** With the flag set the disconnect handler does nothing at all. *)
Lemma _handle_disconnect_shut w side st :
  shutting_down st = true -> _handle_disconnect w side st = (Ret false, st).
Proof.
  intros H. unfold _handle_disconnect, bind, gets. rewrite H. reflexivity.
Qed.

(** With the flag set the monitoring loop returns at its first check. *)
Lemma _monitor_connection_quality_shut fuel st :
  shutting_down st = true ->
  _monitor_connection_quality (S fuel) st = (Ret (Some tt), st).
Proof.
  intros H. simpl. unfold bind, gets. rewrite H. reflexivity.
Qed.

(** ** The disconnect handler and the shutdown flag *)

(** C7: an invocation of the disconnect handler while the shutdown flag is
    true returns false at once and changes nothing: no event is logged
    and no call to the outside is made, so the per-side connect routine
    is not called. *)
Theorem handle_disconnect_while_shutting_down (w : World) (side : Side)
  (st : St) :
  shutting_down st = true ->
  _handle_disconnect w side st = (Ret false, st)
  /\ events (snd (_handle_disconnect w side st)) = events st
  /\ tick (snd (_handle_disconnect w side st)) = tick st.
Proof.
  intros H. rewrite (_handle_disconnect_shut w side st H).
  repeat split; reflexivity.
Qed.

Lemma handle_disconnect_while_shutting_down_witness :
  shutting_down Scenarios.torn_down = true
  /\ _handle_disconnect Scenarios.silence Left Scenarios.torn_down
     = (Ret false, Scenarios.torn_down).
Proof.
  split; [reflexivity |].
  apply (handle_disconnect_while_shutting_down Scenarios.silence Left
           Scenarios.torn_down).
  reflexivity.
Defined.

(** C10: the shutdown flag starts false, [disconnect] (alone or as the
    first half of [reconnect]) sets it, and no operation resets it: after
    any operations [before], a [disconnect] or [reconnect], and any
    operations [after], the flag is true, the disconnect handler returns
    false without doing anything and the monitoring loop returns at its
    first check. *)
Theorem shutdown_flag_is_never_reset (w : World) (cfg : Config)
  (before after : list Op) (by_reconnect : bool) (op : Op) (s0 : St)
  (side : Side) (fuel : nat) :
  let st0 := run_ops w before (init cfg) in
  let st1 := if by_reconnect then snd (reconnect w st0)
             else snd (disconnect w st0) in
  let st := run_ops w after st1 in
  shutting_down (init cfg) = false
  /\ implb (shutting_down s0) (shutting_down (run_op w op s0)) = true
  /\ shutting_down st1 = true
  /\ shutting_down st = true
  /\ _handle_disconnect w side st = (Ret false, st)
  /\ _monitor_connection_quality (S fuel) st = (Ret (Some tt), st).
Proof.
  intros st0 st1 st.
  assert (H1 : shutting_down st1 = true).
  { subst st1. destruct by_reconnect;
      [apply reconnect_sets_flag | apply disconnect_sets_flag]. }
  assert (H : shutting_down st = true) by (apply run_ops_flag, H1).
  split; [reflexivity |]. split.
  - pose proof (run_op_flag w op s0) as Hop. unfold flag_up in Hop.
    destruct (shutting_down s0); simpl; [apply Hop; reflexivity | reflexivity].
  - split; [exact H1 |]. split; [exact H |]. split.
    + apply _handle_disconnect_shut, H.
    + apply _monitor_connection_quality_shut, H.
Qed.

(** ** The status snapshot *)

Section StatusFrames.

Variable w : World.

Lemma reconnect_attempts_bookkeeping side idx :
  keeps bookkeeping (for_each (reconnect_attempt w side) idx).
Proof. keeps_auto. Qed.


End StatusFrames.




(** ** The heartbeat loop *)

Lemma next_seq (n : nat) :
  Z.land (Z.of_nat n mod 256 + 1) 0xFF = (Z.of_nat (S n) mod 256)%Z.
Proof.
  change 0xFF%Z with (Z.ones 8). rewrite Z.land_ones by lia.
  change (2 ^ 8)%Z with 256%Z.
  rewrite Nat2Z.inj_succ, <- Z.add_1_r.
  rewrite Zplus_mod_idemp_l. reflexivity.
Qed.

(** One pass with both clients stored: the first send raises, the handler
    records the error and backs off. *)
Lemma heartbeat_pass_run seq st l r :
  left_client st = Some l -> right_client st = Some r ->
  heartbeat_pass seq st
  = (Ret (Z.land (seq + 1) 0xFF),
     with_events (EvSleep 2000 :: events st)
       (with_last_error
          (Some ("Heartbeat failed: " ++ missing_send_command)%string)
          (with_error_count (S (error_count st)) st))).
Proof.
  intros Hl Hr. unfold heartbeat_pass. rewrite !bind_gets, Hl, Hr.
  reflexivity.
Qed.

(** With both clients present the counter advances in every pass, whether
    the frames get through or not. *)
Lemma heartbeat_pass_counts seq st :
  left_client st <> None -> right_client st <> None ->
  let r := heartbeat_pass seq st in
  fst r = Ret (Z.land (seq + 1) 0xFF)
  /\ left_client (snd r) = left_client st
  /\ right_client (snd r) = right_client st.
Proof.
  intros Hl Hr. cbv zeta.
  destruct (left_client st) as [lc |] eqn:El; [| congruence].
  destruct (right_client st) as [rc |] eqn:Er; [| congruence].
  rewrite (heartbeat_pass_run seq st lc rc El Er). cbn.
  rewrite El, Er. repeat split; reflexivity.
Qed.

Lemma heartbeat_from_counts k : forall n st,
  left_client st <> None -> right_client st <> None ->
  fst (heartbeat_from (Z.of_nat n mod 256) k st)
  = Ret (Z.of_nat (n + k) mod 256)%Z.
Proof.
  induction k as [| k IH]; intros n st Hl Hr; simpl.
  - rewrite Nat.add_0_r. reflexivity.
  - destruct (heartbeat_pass_counts (Z.of_nat n mod 256) st Hl Hr)
      as (Hres & Hl' & Hr').
    unfold bind.
    destruct (heartbeat_pass (Z.of_nat n mod 256) st) as [[s | e] st1];
      simpl in *; [| discriminate].
    injection Hres as ->. rewrite next_seq.
    rewrite IH by congruence. f_equal. f_equal. lia.
Qed.

(** Any number of passes: no frame reaches the transport, no call goes to
    the outside, and the time of the last heartbeat is never written. *)
Lemma heartbeat_from_silent k : forall seq st,
  sent (events (snd (heartbeat_from seq k st))) = sent (events st)
  /\ last_heartbeat (snd (heartbeat_from seq k st)) = last_heartbeat st
  /\ tick (snd (heartbeat_from seq k st)) = tick st.
Proof.
  induction k as [| k IH]; intros seq st; simpl;
    [repeat split; reflexivity |].
  unfold bind.
  destruct (left_client st) as [lc |] eqn:El;
    [destruct (right_client st) as [rc |] eqn:Er |].
  - rewrite (heartbeat_pass_run seq st lc rc El Er).
    destruct (IH (Z.land (seq + 1) 0xFF)
                (with_events (EvSleep 2000 :: events st)
                   (with_last_error
                      (Some ("Heartbeat failed: "
                             ++ missing_send_command)%string)
                      (with_error_count (S (error_count st)) st))))
      as (Hs & Hh & Ht).
    rewrite Hs, Hh, Ht. repeat split; reflexivity.
  - assert (E : heartbeat_pass seq st = (Ret seq, st))
      by (unfold heartbeat_pass; rewrite !bind_gets, El, Er; reflexivity).
    rewrite E. apply IH.
  - assert (E : heartbeat_pass seq st = (Ret seq, st))
      by (unfold heartbeat_pass; rewrite !bind_gets, El; reflexivity).
    rewrite E. apply IH.
Qed.

(** With both clients stored every pass ends in the handler. *)
Lemma heartbeat_from_errors k : forall seq st,
  left_client st <> None -> right_client st <> None ->
  error_count (snd (heartbeat_from seq k st)) = error_count st + k
  /\ events (snd (heartbeat_from seq k st))
     = (repeat (EvSleep 2000) k ++ events st)%list.
Proof.
  induction k as [| k IH]; intros seq st Hl Hr; simpl;
    [split; [lia | reflexivity] |].
  destruct (left_client st) as [lc |] eqn:El; [| congruence].
  destruct (right_client st) as [rc |] eqn:Er; [| congruence].
  unfold bind. rewrite (heartbeat_pass_run seq st lc rc El Er).
  match goal with
  | |- context [heartbeat_from ?q k ?s] =>
      destruct (IH q s) as (Hc & He);
        [cbn; rewrite El; discriminate | cbn; rewrite Er; discriminate |]
  end.
  rewrite Hc, He. cbn. split; [lia |].
  change (EvSleep 2000 :: events st)
    with ([EvSleep 2000] ++ events st)%list.
  rewrite app_assoc. f_equal.
  change [EvSleep 2000%Z] with (repeat (EvSleep 2000%Z) 1).
  rewrite <- repeat_app. replace (k + 1) with (S k) by lia. reflexivity.
Qed.

(** C3: the loop's single counter starts at 0 and is advanced once per
    round, modulo 256, and the frame is built from it, but no frame is
    ever sent: [self.send_command] does not exist, so every round with
    both clients stored ends in the handler.  For any number of rounds
    and any state nothing reaches the transport, no call goes to the
    outside and the time of the last heartbeat is not written; with both
    clients stored the counter is [k mod 256] after [k] rounds, [k]
    errors are counted and the loop has slept 2 s [k] times.  With both
    links up, three rounds should have sent the frames numbered 1, 2 and
    3 to the left and to the right side; they send none. *)
Theorem heartbeat_never_sends (k : nat) (st : St) :
  sent (events (snd (_heartbeat_loop k st))) = sent (events st)
  /\ last_heartbeat (snd (_heartbeat_loop k st)) = last_heartbeat st
  /\ tick (snd (_heartbeat_loop k st)) = tick st
  /\ match left_client st, right_client st with
     | Some _, Some _ =>
         fst (_heartbeat_loop k st) = Ret (Z.of_nat k mod 256)%Z
         /\ error_count (snd (_heartbeat_loop k st)) = error_count st + k
         /\ events (snd (_heartbeat_loop k st))
            = (repeat (EvSleep 2000) k ++ events st)%list
     | _, _ => True
     end
  /\ _heartbeat_loop 3 Scenarios.linked
     = (Ret 3%Z,
        with_events [EvSleep 2000; EvSleep 2000; EvSleep 2000]
          (with_last_error
             (Some "Heartbeat failed: 'BLEManager' object has no attribute 'send_command'")
             (with_error_count 3 Scenarios.linked)))
  /\ sent (events (snd (_heartbeat_loop 3 Scenarios.linked))) = []
  /\ flat_map round_frames (seq 1 3)
     = [(Left, heartbeat_frame 1); (Right, heartbeat_frame 1);
        (Left, heartbeat_frame 2); (Right, heartbeat_frame 2);
        (Left, heartbeat_frame 3); (Right, heartbeat_frame 3)].
Proof.
  unfold _heartbeat_loop.
  destruct (heartbeat_from_silent k 0%Z st) as (Hs & Hh & Ht).
  split; [exact Hs |]. split; [exact Hh |]. split; [exact Ht |].
  split; [| repeat split; reflexivity].
  destruct (left_client st) as [lc |] eqn:El; [| exact I].
  destruct (right_client st) as [rc |] eqn:Er; [| exact I].
  assert (Hl : left_client st <> None) by (rewrite El; discriminate).
  assert (Hr : right_client st <> None) by (rewrite Er; discriminate).
  split; [apply (heartbeat_from_counts k 0 st Hl Hr) |].
  apply (heartbeat_from_errors k 0%Z st Hl Hr).
Qed.

(** The counter wraps: 256 rounds bring it back to 0. *)
Example heartbeat_wraps :
  fst (_heartbeat_loop 256 Scenarios.linked) = Ret 0%Z.
Proof. vm_compute. reflexivity. Qed.

(** ** The retry loop of [_connect_glass] *)

#[global] Instance quiet_events_preorder : PreOrder quiet_events.
Proof.
  split.
  - intros st. split; [reflexivity |]. exists []. split; [reflexivity |].
    constructor.
  - intros a b c [Hc1 (n1 & He1 & Hf1)] [Hc2 (n2 & He2 & Hf2)]. split.
    + congruence.
    + exists (n2 ++ n1)%list. split.
      * rewrite He2, He1, app_assoc. reflexivity.
      * apply Forall_app. split; assumption.
Qed.

Ltac events_kept :=
  intros;
  repeat match goal with
         | |- context [match ?s with Left => _ | Right => _ end] => destruct s
         end;
  (split;
   [ reflexivity
   | first [ exists []; split; [reflexivity | constructor]
           | eexists [_]; split; [reflexivity | repeat constructor] ] ]).

Lemma retry_shape_zero side delay i chron :
  retry_shape side delay i 0 chron -> chron = [].
Proof. intros H. inversion H. reflexivity. Qed.

Section RetryLoop.

Variable w : World.

Lemma retry_sleep_run attempt st :
  retry_sleep attempt st
  = (Ret tt,
     if (Z.of_nat attempt <? Z.of_nat (reconnect_attempts (config st)) - 1)%Z
     then with_events (EvSleep (reconnect_delay (config st)) :: events st) st
     else st).
Proof.
  unfold retry_sleep. rewrite bind_gets.
  destruct (_ <? _)%Z; reflexivity.
Qed.

(** The except block does the same for every message; the message only
    picks the class named in the log. *)
Lemma attempt_failed_run side attempt e st :
  attempt_failed side attempt e st
  = (Ret None,
     if (Z.of_nat attempt <? Z.of_nat (reconnect_attempts (config st)) - 1)%Z
     then with_events (EvSleep (reconnect_delay (config st))
                         :: EvFailure side (classify e) :: events st) st
     else with_events (EvFailure side (classify e) :: events st) st).
Proof.
  unfold attempt_failed, emit. rewrite bind_modify.
  unfold bind. rewrite retry_sleep_run. cbn.
  destruct (_ <? _)%Z; reflexivity.
Qed.

(** After its log line, the try block adds no other attempt line. *)
Lemma attempt_body_events side address attempt st :
  config (snd (attempt_body w side address attempt st)) = config st
  /\ exists body,
       events (snd (attempt_body w side address attempt st))
       = (rev body ++ EvAttempt side attempt :: events st)%list
       /\ Forall (fun e => is_attempt e = false) body.
Proof.
  unfold attempt_body, emit at 1. rewrite !bind_modify.
  match goal with
  | |- context [?m (with_events ?evs st)] =>
      assert (Hk : keeps quiet_events m) by (keeps_tac; events_kept);
      destruct (Hk (with_events evs st)) as [Hc (new & He & Hf)]
  end.
  split; [exact Hc |]. exists (rev new). rewrite rev_involutive.
  split; [exact He |]. apply Forall_rev, Hf.
Qed.

(** The try block leaves the attempt loop only with [True]. *)
Lemma attempt_body_result side address attempt st b :
  fst (attempt_body w side address attempt st) = Ret (Some b) -> b = true.
Proof.
  unfold attempt_body, bind.
  repeat match goal with
         | |- context [match ?m ?s with _ => _ end] =>
             destruct (m s) as [[? | ?] ?]
         | |- context [if ?c then _ else _] => destruct c
         end; simpl; congruence.
Qed.

(** One pass of the loop: the attempt connects, or it fails and sleeps if
    another attempt follows. *)
Lemma connect_attempt_run side address attempt st :
  let r := connect_attempt w side address attempt st in
  let last := negb (Z.of_nat attempt
                    <? Z.of_nat (reconnect_attempts (config st)) - 1)%Z in
  config (snd r) = config st
  /\ exists body,
       Forall (fun e => is_attempt e = false) body
       /\ ((fst r = Ret (Some true)
            /\ events (snd r)
               = (rev body ++ EvAttempt side attempt :: events st)%list)
           \/ (fst r = Ret None
               /\ events (snd r)
                  = ((if last then []
                      else [EvSleep (reconnect_delay (config st))])
                       ++ rev body
                       ++ EvAttempt side attempt :: events st)%list)).
Proof.
  cbv zeta. unfold connect_attempt, try_catch, bind.
  destruct (attempt_body_events side address attempt st)
    as [Hc (body & He & Hf)].
  pose proof (attempt_body_result side address attempt st) as Hres.
  destruct (attempt_body w side address attempt st) as [[[b |] | e] st1];
    simpl in *.
  - rewrite (Hres b eq_refl). split; [exact Hc |].
    exists body. split; [exact Hf |]. left. split; [reflexivity | exact He].
  - rewrite retry_sleep_run, Hc. simpl.
    destruct (_ <? _)%Z; simpl; (split; [exact Hc |]);
      exists body; (split; [exact Hf |]); right;
      (split; [reflexivity |]); rewrite He; reflexivity.
  - rewrite attempt_failed_run, Hc.
    destruct (_ <? _)%Z; simpl; (split; [exact Hc |]);
      exists (body ++ [EvFailure side (classify e)])%list;
      (split; [apply Forall_app; split; [exact Hf | repeat constructor] |]);
      right; (split; [reflexivity |]);
      rewrite He, rev_app_distr; reflexivity.
Qed.

Lemma attempts_shape side address n : forall i st,
  i + n = reconnect_attempts (config st) ->
  let r := for_each (connect_attempt w side address) (seq i n) st in
  config (snd r) = config st
  /\ exists k chron,
       events (snd r) = (rev chron ++ events st)%list
       /\ retry_shape side (reconnect_delay (config st)) i k chron
       /\ ((fst r = Ret (Some true) /\ 1 <= k <= n)
           \/ (fst r = Ret None /\ k = n)).
Proof.
  induction n as [| n IH]; intros i st Hn; cbv zeta.
  - simpl. split; [reflexivity |]. exists 0, []. split; [reflexivity |].
    split; [constructor |]. right. split; reflexivity.
  - simpl. unfold bind.
    destruct (connect_attempt_run side address i st)
      as [Hc (body & Hf & [[Hr He] | [Hr He]])];
      destruct (connect_attempt w side address i st) as [[r |e] st1];
      simpl in *; try discriminate; injection Hr as ->.
    + split; [exact Hc |]. exists 1, (EvAttempt side i :: body).
      split; [simpl; rewrite He, <- app_assoc; reflexivity |].
      split; [constructor; exact Hf |]. left. split; [reflexivity | lia].
    + assert (Hn' : S i + n = reconnect_attempts (config st1)) by
        (rewrite Hc; lia).
      destruct (IH (S i) st1 Hn') as [Hc' (k & chron & He' & Hs & Hk)].
      split; [congruence |].
      rewrite Hc in Hs.
      destruct n as [| n'].
      * assert (k = 0) by (destruct Hk as [[_ ?] | [_ ?]]; lia). subst k.
        apply retry_shape_zero in Hs. subst chron.
        exists 1, (EvAttempt side i :: body).
        assert (Hlast : (Z.of_nat i
                         <? Z.of_nat (reconnect_attempts (config st)) - 1)%Z
                        = false) by (apply Z.ltb_ge; lia).
        rewrite Hlast in He. simpl in He.
        split; [rewrite He'; simpl; rewrite He, <- app_assoc; reflexivity |].
        split; [constructor; exact Hf |].
        destruct Hk as [[Hk ?] | [Hk _]]; [lia |].
        right. split; [exact Hk | reflexivity].
      * assert (Hnl : (Z.of_nat i
                       <? Z.of_nat (reconnect_attempts (config st)) - 1)%Z
                      = true) by (apply Z.ltb_lt; lia).
        rewrite Hnl in He. simpl in He.
        destruct k as [| k']; [destruct Hk as [[_ ?] | [_ ?]]; lia |].
        exists (S (S k')),
          (EvAttempt side i
             :: body ++ EvSleep (reconnect_delay (config st)) :: chron)%list.
        split.
        { rewrite He', He. simpl. rewrite rev_app_distr. simpl.
          repeat (rewrite <- app_assoc; simpl). reflexivity. }
        split; [constructor; assumption |].
        destruct Hk as [[Hk ?] | [Hk ?]];
          [left | right]; (split; [exact Hk | lia]).
Qed.

End RetryLoop.

(** C8: without a stored address [_connect_glass] returns false at once
    and leaves the state as it was (nothing is opened, nothing is retried,
    no sleep).  With an address it makes [k] attempts, numbered from 0,
    with [k] at most [reconnect_attempts]; the sleep of [reconnect_delay]
    stands between any two consecutive attempts, and not after the last;
    it returns false only after all [reconnect_attempts] attempts.  The
    except block of an attempt does the same for every error message:
    the message only picks the class named in the log. *)
Theorem connect_glass_retry_policy (w : World) (side : Side) (st : St)
  (attempt : nat) (e : string) :
  (if truthy (side_address side (config st))
   then exists k chron b,
          fst (_connect_glass w side st) = Ret b
          /\ events (snd (_connect_glass w side st))
             = (rev chron ++ events st)%list
          /\ retry_shape side (reconnect_delay (config st)) 0 k chron
          /\ k <= reconnect_attempts (config st)
          /\ (if b then 1 <= k else k = reconnect_attempts (config st))
   else _connect_glass w side st = (Ret false, st))
  /\ attempt_failed side attempt e st
     = (Ret None,
        if (Z.of_nat attempt
            <? Z.of_nat (reconnect_attempts (config st)) - 1)%Z
        then with_events (EvSleep (reconnect_delay (config st))
                            :: EvFailure side (classify e) :: events st) st
        else with_events (EvFailure side (classify e) :: events st) st).
Proof.
  split; [| apply attempt_failed_run].
  unfold _connect_glass, try_catch. rewrite bind_gets.
  destruct (truthy (side_address side (config st))) eqn:Ha; simpl;
    [| reflexivity].
  unfold bind, range.
  destruct (attempts_shape w side (py_str (side_address side (config st)))
              (reconnect_attempts (config st)) 0 st eq_refl)
    as [Hc (k & chron & He & Hs & Hk)].
  destruct (for_each _ _ st) as [[[b |] | err] st1]; simpl in *.
  - exists k, chron, b. destruct Hk as [[Hr Hk] | [Hr _]]; [| discriminate].
    injection Hr as ->. repeat split; try assumption; lia.
  - exists k, chron, false. destruct Hk as [[Hr _] | [_ Hk]]; [discriminate |].
    repeat split; try assumption; lia.
  - destruct Hk as [[Hr _] | [Hr _]]; discriminate.
Qed.

(** What the retry loop looks like from outside: with two attempts
    configured and every open timing out, each side is tried twice with
    one sleep in between. *)
Example connect_glass_two_timeouts :
  _connect_glass Scenarios.silence Left (init Scenarios.stored)
  = (Ret false,
     with_tick 2
       (with_events
          (rev [EvAttempt Left 0;
                EvOpen Left "AA:AA:AA:AA:AA:01" 10000;
                EvFailure Left Timeout;
                EvSleep 2000;
                EvAttempt Left 1;
                EvOpen Left "AA:AA:AA:AA:AA:01" 10000;
                EvFailure Left Timeout])
          (init Scenarios.stored))).
Proof. reflexivity. Qed.

(** ** Discovery *)

(** A name with the left-side pattern is a named product device. *)
Lemma left_pattern_is_g1 name :
  PyStr.contains "_L_" name = true ->
  PyStr.nonempty name && is_g1_name name = true.
Proof.
  intros H. unfold is_g1_name, product_patterns. simpl. rewrite H. simpl.
  destruct name; [discriminate | reflexivity].
Qed.

Lemma scan_unnamed_skipped acc device st :
  is_g1_device device = false ->
  scan_available_step acc device st = (Ret acc, st).
Proof.
  unfold is_g1_device, scan_available_step.
  destruct acc as [[lf rf] g1]. destruct (d_name device) as [name |].
  - intros ->. reflexivity.
  - reflexivity.
Qed.

Lemma scan_fold_filter devices : forall acc st,
  fold_m scan_available_step acc devices st
  = fold_m scan_available_step acc (List.filter is_g1_device devices) st.
Proof.
  induction devices as [| d rest IH]; intros acc st; simpl; [reflexivity |].
  destruct (is_g1_device d) eqn:Hd; simpl.
  - unfold bind. destruct (scan_available_step acc d st) as [[a | e] st1];
      [apply IH | reflexivity].
  - unfold bind. rewrite (scan_unnamed_skipped acc d st Hd). apply IH.
Qed.

(** C4, as the code has it.  A discovered peripheral whose name contains
    ["_L_"] takes the left side if that side is still open when it is
    looked at, and the right side is left alone; if the left side is
    taken and the name carries no right-side pattern, the classification
    assigns nothing (the peripheral stays a candidate for the arbitrary
    assignment of a missing side).  Peripherals without a name or without
    a product pattern in the name are never assigned: the active scan
    gives the same result with them removed from the list. *)
Theorem scan_classification (found : bool * bool) (right_found : bool)
  (g1_devices devices : list Device) (device : Device) (name : string)
  (st : St) :
  d_name device = Some name ->
  PyStr.contains "_L_" name = true ->
  scan_available_step (false, right_found, g1_devices) device st
  = (Ret (true, right_found, (g1_devices ++ [device])%list),
     with_config
       (set_left_name (Some name)
          (set_left_address (Some (d_address device)) (config st))) st)
  /\ (if PyStr.contains "_R_" name || PyStr.contains "Right" name then True
      else scan_available_step (true, right_found, g1_devices) device st
           = (Ret (true, right_found, (g1_devices ++ [device])%list), st))
  /\ scan_available found devices st
     = scan_available found (List.filter is_g1_device devices) st.
Proof.
  intros Hname HL. pose proof (left_pattern_is_g1 name HL) as Hg1.
  split; [| split].
  - unfold scan_available_step. rewrite Hname, Hg1, HL. reflexivity.
  - destruct (PyStr.contains "_R_" name || PyStr.contains "Right" name)
      eqn:HR; [exact I |].
    unfold scan_available_step. rewrite Hname, Hg1, HR. simpl.
    destruct right_found; reflexivity.
  - unfold scan_available. unfold bind.
    rewrite (scan_fold_filter devices). reflexivity.
Qed.

Lemma scan_classification_witness :
  right_address
    (config (snd (scan_available_step (false, false, [])
                    {| d_name := Some "Even G1_7_L_0A1B2C";
                       d_address := "AA:AA:AA:AA:AA:01" |}
                    (init Scenarios.fresh))))
  = None.
Proof.
  pose proof (scan_classification (false, false) false [] []
                {| d_name := Some "Even G1_7_L_0A1B2C";
                   d_address := "AA:AA:AA:AA:AA:01" |}
                "Even G1_7_L_0A1B2C" (init Scenarios.fresh)
                eq_refl eq_refl) as [H _].
  rewrite H. reflexivity.
Defined.

(** C4 as stated fails.  Of two discovered lenses named with ["_L_"] the
    second is assigned to the right side, and a device whose name has no
    side pattern is assigned to the left side. *)
Lemma left_named_lens_assigned_right :
  PyStr.contains "_L_" "Even G1_9_L_77C0DE" = true
  /\ fst (scan_for_glasses Scenarios.two_left_lenses (init Scenarios.fresh))
     = Ret true
  /\ right_address
       (config (snd (scan_for_glasses Scenarios.two_left_lenses
                       (init Scenarios.fresh))))
     = Some "CC:CC:CC:CC:CC:03"
  /\ right_name
       (config (snd (scan_for_glasses Scenarios.two_left_lenses
                       (init Scenarios.fresh))))
     = Some "Even G1_9_L_77C0DE"
  /\ PyStr.contains "_L_" "G1 glasses" || PyStr.contains "Left" "G1 glasses"
     || PyStr.contains "_R_" "G1 glasses"
     || PyStr.contains "Right" "G1 glasses" = false
  /\ left_address
       (config (snd (scan_for_glasses Scenarios.one_plain_g1
                       (init Scenarios.fresh))))
     = Some "DD:DD:DD:DD:DD:04".
Proof. repeat split; reflexivity. Qed.

(** C5: the code returns true from a scan that resolved no address.  With
    nothing stored and both lenses paired with Windows, the first listing
    yields no entry (no address to give them), the alternative listing
    yields both entries with the stored address, which is [None]; both
    sides count as found, the scan saves and returns true. *)
Theorem scan_true_without_addresses :
  _get_windows_connected_g1_devices Scenarios.paired_with_windows
    (init Scenarios.fresh)
  = (Ret [ {| di_name := "Even G1_7_L_0A1B2C   BTHLE\DEV_1";
              di_address := None |};
           {| di_name := "Even G1_7_R_3D4E5F   BTHLE\DEV_2";
              di_address := None |} ],
     with_tick 2
       (with_events [EvWmiQuery; EvWindowsQuery] (init Scenarios.fresh)))
  /\ fst (scan_for_glasses Scenarios.paired_with_windows
            (init Scenarios.fresh)) = Ret true
  /\ left_address
       (config (snd (scan_for_glasses Scenarios.paired_with_windows
                       (init Scenarios.fresh)))) = None
  /\ right_address
       (config (snd (scan_for_glasses Scenarios.paired_with_windows
                       (init Scenarios.fresh)))) = None
  /\ left_address
       (persisted (snd (scan_for_glasses Scenarios.paired_with_windows
                          (init Scenarios.fresh)))) = None
  /\ right_address
       (persisted (snd (scan_for_glasses Scenarios.paired_with_windows
                          (init Scenarios.fresh)))) = None.
Proof. repeat split; reflexivity. Qed.

(** The rest of C5 holds on this run of the code: when nothing matches,
    the scan returns false, the state is Disconnected and the address
    store is as before. *)
Example scan_finds_nothing :
  fst (scan_for_glasses Scenarios.silence (init Scenarios.stored)) = Ret false
  /\ conn (snd (scan_for_glasses Scenarios.silence (init Scenarios.stored)))
     = DISCONNECTED
  /\ config (snd (scan_for_glasses Scenarios.silence (init Scenarios.stored)))
     = Scenarios.stored
  /\ persisted
       (snd (scan_for_glasses Scenarios.silence (init Scenarios.stored)))
     = Scenarios.stored.
Proof. repeat split; reflexivity. Qed.

(** ** The coordinator on concrete runs *)

(** C6: Strategy 4 clears the stored addresses and does not put them back
    when its scan fails.  Both addresses are stored, the left lens
    connects, the right lens does not, the scan of Strategy 4 finds
    nothing: on return both addresses are gone, in the configuration and
    in the persisted store. *)
Theorem strategy4_loses_addresses :
  left_address Scenarios.stored = Some "AA:AA:AA:AA:AA:01"
  /\ right_address Scenarios.stored = Some "BB:BB:BB:BB:BB:02"
  /\ fst (connect_to_glasses Scenarios.right_lens_dead
            (init Scenarios.stored)) = Ret false
  /\ left_address
       (config (snd (connect_to_glasses Scenarios.right_lens_dead
                       (init Scenarios.stored)))) = None
  /\ right_address
       (config (snd (connect_to_glasses Scenarios.right_lens_dead
                       (init Scenarios.stored)))) = None
  /\ left_address
       (persisted (snd (connect_to_glasses Scenarios.right_lens_dead
                          (init Scenarios.stored)))) = None
  /\ right_address
       (persisted (snd (connect_to_glasses Scenarios.right_lens_dead
                          (init Scenarios.stored)))) = None.
Proof. repeat split; reflexivity. Qed.

(** Strategy 3 does put the addresses back into the configuration when
    its scan fails. *)
Example strategy3_restores_addresses :
  config (snd (connect_to_glasses Scenarios.silence (init Scenarios.stored)))
  = Scenarios.stored.
Proof. reflexivity. Qed.

(** C1: a run of [connect_to_glasses] that ends with exactly one side
    connected.  The left lens connects, the right lens does not; in
    Strategy 4 the call that closes the left link raises (or, in the
    second run, the call that saves the cleared addresses raises).  The
    handler of [connect_to_glasses] sets the state to Disconnected and
    returns false; the left client is still stored and connected. *)
Theorem partial_connection_survives_exception :
  fst (connect_to_glasses Scenarios.right_lens_dead_close_fails
         (init Scenarios.stored)) = Ret false
  /\ conn (snd (connect_to_glasses Scenarios.right_lens_dead_close_fails
                  (init Scenarios.stored))) = DISCONNECTED
  /\ left_client (snd (connect_to_glasses
                         Scenarios.right_lens_dead_close_fails
                         (init Scenarios.stored)))
     = Some {| c_address := "AA:AA:AA:AA:AA:01"; c_callback := Some Left;
               c_connected := true |}
  /\ right_client (snd (connect_to_glasses
                          Scenarios.right_lens_dead_close_fails
                          (init Scenarios.stored))) = None
  /\ fst (connect_to_glasses Scenarios.right_lens_dead_save_fails
            (init Scenarios.stored)) = Ret false
  /\ conn (snd (connect_to_glasses Scenarios.right_lens_dead_save_fails
                  (init Scenarios.stored))) = DISCONNECTED
  /\ left_client (snd (connect_to_glasses
                         Scenarios.right_lens_dead_save_fails
                         (init Scenarios.stored)))
     = Some {| c_address := "AA:AA:AA:AA:AA:01"; c_callback := Some Left;
               c_connected := true |}
  /\ right_client (snd (connect_to_glasses
                          Scenarios.right_lens_dead_save_fails
                          (init Scenarios.stored))) = None.
Proof. repeat split; reflexivity. Qed.

(** Without the exception the same run ends with both sides closed. *)
Example partial_connection_dropped :
  fst (connect_to_glasses Scenarios.right_lens_dead (init Scenarios.stored))
  = Ret false
  /\ conn (snd (connect_to_glasses Scenarios.right_lens_dead
                  (init Scenarios.stored))) = DISCONNECTED
  /\ left_client (snd (connect_to_glasses Scenarios.right_lens_dead
                         (init Scenarios.stored))) = None
  /\ right_client (snd (connect_to_glasses Scenarios.right_lens_dead
                          (init Scenarios.stored))) = None.
Proof. repeat split; reflexivity. Qed.

(** C2 as stated fails: started from Disconnected with nothing stored,
    [connect_to_glasses] goes to Connecting without a scan, and from
    Connecting to Scanning when Strategy 3 scans. *)
Lemma connecting_goes_back_to_scanning :
  rev (conn_log (snd (connect_to_glasses Scenarios.silence
                        (init Scenarios.fresh))))
  = [(DISCONNECTED, CONNECTING); (CONNECTING, SCANNING);
     (SCANNING, DISCONNECTED); (DISCONNECTED, DISCONNECTED)]
  /\ spec_transition (DISCONNECTED, CONNECTING) = false
  /\ spec_transition (CONNECTING, SCANNING) = false
  /\ forallb spec_transition
       (conn_log (snd (connect_to_glasses Scenarios.silence
                         (init Scenarios.fresh)))) = false.
Proof. repeat split; reflexivity. Qed.

(** ** The transitions of the connection state *)

Lemma grown_refl st : grown (conn_log st) st.
Proof. exists []. split; reflexivity. Qed.

Lemma grown_kept log0 st st' :
  conn_kept st st' -> grown log0 st -> grown log0 st'.
Proof.
  intros [_ Hl] (new & Hn & Hf). unfold same in Hl.
  exists new. split; [congruence | exact Hf].
Qed.

Lemma at_conn_kept S log0 st st' :
  at_conn S log0 st -> conn_kept st st' -> at_conn S log0 st'.
Proof.
  intros [Hg HS] Hk. split; [eapply grown_kept; eassumption |].
  destruct Hk as [Hc _]. unfold same in Hc. rewrite Hc. exact HS.
Qed.

Lemma grown_trans log0 st st' :
  grown log0 st -> log_grows st st' -> grown log0 st'.
Proof.
  intros (n1 & H1 & F1) (n2 & H2 & F2).
  exists (n2 ++ n1)%list. split.
  - rewrite H2, H1, app_assoc. reflexivity.
  - rewrite forallb_app, F1, F2. reflexivity.
Qed.

#[global] Instance log_grows_preorder : PreOrder log_grows.
Proof.
  split.
  - intros st. apply grown_refl.
  - intros a b c Hab Hbc. eapply grown_trans; eassumption.
Qed.

(** Writing a state other than Connected is a transition of the code
    from any state. *)
Lemma write_grows s st :
  s <> CONNECTED -> log_grows st (snd (set_connection_state s st)).
Proof.
  intros Hs. exists [(conn st, s)]. split; [reflexivity |].
  simpl. destruct (conn st), s; try reflexivity; congruence.
Qed.

Lemma hoare_write log0 s E :
  s <> CONNECTED ->
  hoare (grown log0) (set_connection_state s)
        (fun _ => at_conn (eq s) log0) E.
Proof.
  intros Hs st Hg. simpl. split; [| reflexivity].
  eapply grown_trans; [exact Hg |]. apply (write_grows s st Hs).
Qed.

Lemma hoare_write_connected log0 E :
  hoare (at_conn connecting_or_scanning log0) (set_connection_state CONNECTED)
        (fun _ => grown log0) E.
Proof.
  intros st [Hg Hc]. simpl. eapply grown_trans; [exact Hg |].
  exists [(conn st, CONNECTED)]. split; [reflexivity |].
  destruct Hc as [-> | ->]; reflexivity.
Qed.

Ltac log_kept :=
  intros;
  repeat match goal with
         | |- context [match ?s with Left => _ | Right => _ end] => destruct s
         end;
  first [ apply write_grows; discriminate
        | exists []; split; reflexivity ].

Ltac kept_side :=
  let HP := fresh in
  let HR := fresh in
  intros ? ? HP HR;
  first [ exact (at_conn_kept _ _ _ _ HP HR)
        | exact (grown_kept _ _ _ HR (proj1 HP))
        | exact (grown_kept _ _ _ HR HP) ].

(** A part of an operation that leaves the connection state alone. *)
Ltac hoare_kept :=
  apply (hoare_keeps conn_kept); [keeps_auto | kept_side | kept_side].

Section Transitions.

Variable w : World.

Lemma disconnect_log : keeps log_grows (disconnect w).
Proof. unfold disconnect. keeps_tac; log_kept. Qed.

(** A scan leaves Scanning behind when it succeeds. *)
Lemma scan_for_glasses_log log0 :
  hoare (grown log0) (scan_for_glasses w)
        (fun b st => grown log0 st /\ (b = true -> conn st = SCANNING))
        (fun _ => False).
Proof.
  unfold scan_for_glasses.
  apply hoare_try with (E' := grown log0).
  - eapply hoare_bind; [apply hoare_write; discriminate |]. intros ?.
    eapply hoare_bind; [hoare_kept |]. intros devices.
    eapply hoare_bind; [hoare_kept |]. intros found.
    eapply hoare_bind; [hoare_kept |]. intros found'.
    destruct (negb (fst found' && snd found')).
    + eapply hoare_bind.
      * apply hoare_pre with (P := grown log0); [intros st H; apply H |].
        apply hoare_write with (s := DISCONNECTED). discriminate.
      * intros ?. apply hoare_ret. intros st [H _].
        split; [exact H | discriminate].
    + eapply hoare_bind; [hoare_kept |]. intros ?.
      apply hoare_ret. intros st [H Hc]. split; [exact H | auto].
  - intros e. eapply hoare_bind.
    + apply hoare_write with (s := DISCONNECTED). discriminate.
    + intros ?. apply hoare_ret. intros st [H _].
      split; [exact H | discriminate].
Qed.

Lemma strategy3_log log0 c :
  hoare (at_conn (eq CONNECTING) log0) (strategy3 w c)
        (fun c' st => grown log0 st
                      /\ (connecting_or_scanning (conn st)
                          \/ c' = (false, false)))
        (grown log0).
Proof.
  unfold strategy3. destruct (negb (fst c) && negb (snd c)) eqn:Hc.
  - assert (c = (false, false)) as ->.
    { destruct c as [[|] [|]]; simpl in Hc; congruence. }
    eapply hoare_bind; [hoare_kept |]. intros cfg.
    eapply hoare_bind; [hoare_kept |]. intros ?.
    eapply hoare_bind.
    { apply hoare_pre with (P := grown log0); [intros st H; apply H |].
      apply hoare_returns, scan_for_glasses_log. }
    intros [|].
    + apply hoare_pre with (P := at_conn (eq SCANNING) log0).
      { intros st [H Hs]. split; [exact H | symmetry; auto]. }
      apply hoare_post with (Q := fun _ => at_conn (eq SCANNING) log0).
      { intros ? st [H Hs]. split; [exact H | left; right; auto]. }
      hoare_kept.
    + apply hoare_pre with (P := grown log0); [intros st H; apply H |].
      eapply hoare_bind; [hoare_kept |]. intros ?.
      eapply hoare_bind; [hoare_kept |]. intros ?.
      apply hoare_ret. intros st H. split; [exact H | right; reflexivity].
  - apply hoare_ret. intros st [H Hs].
    split; [exact H | left; left; auto].
Qed.

Lemma strategy4_log log0 c :
  hoare (fun st => grown log0 st
                   /\ (connecting_or_scanning (conn st)
                       \/ c = (false, false)))
        (strategy4 w c)
        (fun c' st => grown log0 st
                      /\ (fst c' && snd c' = true ->
                          connecting_or_scanning (conn st)))
        (grown log0).
Proof.
  unfold strategy4.
  destruct ((fst c && negb (snd c)) || (snd c && negb (fst c))) eqn:Hc.
  - apply hoare_pre with (P := grown log0); [intros st H; apply H |].
    eapply hoare_bind; [hoare_kept |]. intros ?.
    eapply hoare_bind; [hoare_kept |]. intros ?.
    eapply hoare_bind; [hoare_kept |]. intros ?.
    eapply hoare_bind; [apply hoare_returns, scan_for_glasses_log |].
    intros [|].
    + apply hoare_pre with (P := at_conn (eq SCANNING) log0).
      { intros st [H Hs]. split; [exact H | symmetry; auto]. }
      apply hoare_post with (Q := fun _ => at_conn (eq SCANNING) log0).
      { intros ? st [H Hs]. split; [exact H | intros _; right; auto]. }
      hoare_kept.
    + apply hoare_ret. intros st [H _]. split; [exact H |].
      intros Hb. destruct c as [[|] [|]]; simpl in *; congruence.
  - apply hoare_ret. intros st [H [Hs | ->]].
    + split; [exact H | auto].
    + split; [exact H | discriminate].
Qed.

Lemma evaluate_log log0 c :
  hoare (fun st => grown log0 st
                   /\ (fst c && snd c = true ->
                       connecting_or_scanning (conn st)))
        (evaluate w c) (fun _ => grown log0) (grown log0).
Proof.
  unfold evaluate. destruct (fst c && snd c).
  - apply hoare_pre with (P := at_conn connecting_or_scanning log0).
    { intros st [H Hs]. split; [exact H | auto]. }
    eapply hoare_bind; [hoare_kept |]. intros ?.
    eapply hoare_bind; [hoare_kept |]. intros ?.
    eapply hoare_bind; [apply hoare_write_connected |]. intros ?.
    eapply hoare_bind; [hoare_kept |]. intros ?.
    eapply hoare_bind; [hoare_kept |]. intros ?.
    apply hoare_ret. auto.
  - apply hoare_pre with (P := grown log0); [intros st H; apply H |].
    eapply hoare_bind; [hoare_kept |]. intros ?.
    eapply hoare_bind; [hoare_kept |]. intros ?.
    eapply hoare_bind.
    { apply hoare_write with (s := DISCONNECTED). discriminate. }
    intros ?. apply hoare_ret. intros st H. apply H.
Qed.

Lemma connect_to_glasses_log log0 :
  hoare (grown log0) (connect_to_glasses w) (fun _ => grown log0)
        (fun _ => False).
Proof.
  unfold connect_to_glasses.
  apply hoare_try with (E' := grown log0).
  - eapply hoare_bind; [apply hoare_write; discriminate |]. intros ?.
    eapply hoare_bind; [hoare_kept |]. intros ?.
    eapply hoare_bind; [hoare_kept |]. intros c1.
    eapply hoare_bind; [hoare_kept |]. intros c2.
    eapply hoare_bind; [apply strategy3_log |]. intros c3.
    eapply hoare_bind; [apply strategy4_log |]. intros c4.
    apply evaluate_log.
  - intros e. eapply hoare_bind.
    + apply hoare_write with (s := DISCONNECTED). discriminate.
    + intros ?. apply hoare_ret. intros st H. apply H.
Qed.

Lemma disconnect_log_hoare log0 :
  hoare (grown log0) (disconnect w) (fun _ => grown log0) (fun _ => False).
Proof.
  intros st H. pose proof (disconnect_log st) as Hk.
  destruct (disconnect_returns w st) as [a Ha].
  destruct (disconnect w st) as [[a' | e] st1]; simpl in *; [| discriminate].
  eapply grown_trans; eassumption.
Qed.

Lemma reconnect_log log0 :
  hoare (grown log0) (reconnect w) (fun _ => grown log0) (fun _ => False).
Proof.
  unfold reconnect. apply hoare_try with (E' := fun _ => False).
  - eapply hoare_bind; [apply disconnect_log_hoare |]. intros ?.
    apply connect_to_glasses_log.
  - intros e st [].
Qed.

(** What a Hoare triple without exception says about one run. *)
Lemma hoare_run {A} (m : M A) log0 st :
  hoare (grown log0) m (fun _ => grown log0) (fun _ => False) ->
  grown log0 st -> grown log0 (snd (m st)).
Proof.
  intros Hm H. specialize (Hm st H).
  destruct (m st) as [[a | e] st1]; [exact Hm | destruct Hm].
Qed.

End Transitions.

Lemma _monitor_connection_quality_conn fuel :
  keeps conn_kept (_monitor_connection_quality fuel).
Proof.
  induction fuel as [| fuel IH]; simpl; [apply keeps_ret; typeclasses eauto |].
  keeps_auto.
Qed.

Lemma heartbeat_from_conn passes :
  forall seq, keeps conn_kept (heartbeat_from seq passes).
Proof.
  induction passes as [| n IH]; intros seq; simpl.
  - apply keeps_ret; typeclasses eauto.
  - apply keeps_bind; [typeclasses eauto | | intros a; apply IH].
    keeps_auto.
Qed.

(** C2, as the code has it.  Only [scan_for_glasses], [connect_to_glasses],
    [disconnect] and [reconnect] write the connection state, and each of
    their writes is a transition of the code: into Disconnected, into
    Scanning or into Connecting from any state, and into Connected from
    Connecting or from Scanning only.  Every other operation leaves the
    state and its log as they were. *)
Theorem connection_state_transitions (w : World) (op : Op) (st : St) :
  if writes_state op
  then exists new,
         conn_log (run_op w op st) = (new ++ conn_log st)%list
         /\ forallb code_transition new = true
  else conn_log (run_op w op st) = conn_log st
       /\ conn (run_op w op st) = conn st.
Proof.
  destruct op; simpl;
    try (match goal with
         | |- conn_log (snd (?m st)) = _ /\ _ =>
             assert (Hk : keeps conn_kept m) by keeps_auto;
             destruct (Hk st) as [Hc Hl]; split; assumption
         end);
    try (split; reflexivity).
  - apply (hoare_run (scan_for_glasses w)); [| apply grown_refl].
    apply (hoare_post _ _ _ _ _ (fun b st H => proj1 H)
             (scan_for_glasses_log w (conn_log st))).
  - apply (hoare_run _ _ _ (connect_to_glasses_log w _)), grown_refl.
  - apply (hoare_run _ _ _ (disconnect_log_hoare w _)), grown_refl.
  - apply (hoare_run _ _ _ (reconnect_log w _)), grown_refl.
  - destruct (_monitor_connection_quality_conn fuel st) as [Hc Hl].
    split; assumption.
  - destruct (heartbeat_from_conn passes 0%Z st) as [Hc Hl].
    split; assumption.
Qed.

(** The transitions the code adds to those of the specification do
    occur: with both lenses in range and nothing stored, a connect goes
    Disconnected, Connecting, Scanning, Connected. *)
Example connected_from_scanning :
  fst (connect_to_glasses Scenarios.lenses_in_range (init Scenarios.fresh))
  = Ret true
  /\ rev (conn_log (snd (connect_to_glasses Scenarios.lenses_in_range
                           (init Scenarios.fresh))))
     = [(DISCONNECTED, CONNECTING); (CONNECTING, SCANNING);
        (SCANNING, CONNECTED)].
Proof. split; reflexivity. Qed.

(** ** The coordinator when no effect call raises *)

Lemma returns_ask {A} (f : nat -> Outcome A) :
  (forall t, exists a, f t = Ret a) -> returns (ask f).
Proof. intros H st. unfold ask. simpl. apply H. Qed.

Lemma hoare_quiet {A} (R : relation St) (P Q : St -> Prop) (m : M A) :
  keeps R m -> returns m ->
  (forall st st', P st -> R st st' -> Q st') ->
  hoare P m (fun _ => Q) (fun _ => False).
Proof.
  intros Hk Hr HQ st HP. specialize (Hk st). destruct (Hr st) as [a Ha].
  destruct (m st) as [[a' | e] st1]; simpl in *; [| discriminate].
  eapply HQ; eassumption.
Qed.

Lemma links_kept l r st st' :
  links l r st -> clients_kept st st' -> links l r st'.
Proof.
  intros [Hl Hr] [Kl Kr]. unfold same in *. split; congruence.
Qed.

Ltac clients_field :=
  intros; unfold clients_kept, both, same; cbn; split; reflexivity.

Ltac returns_step :=
  match goal with
  | |- returns (bind _ _) => apply returns_bind
  | |- returns (try_catch _ _) => apply returns_try
  | |- returns (ret _) => apply returns_ret
  | |- returns (gets _) => apply returns_gets
  | |- returns (modify _) => apply returns_modify
  | |- returns (when _ _) => apply returns_when
  | |- returns (ask _) => apply returns_ask; solve [eauto]
  | |- returns (if ?b then _ else _) => destruct b
  | |- returns (match ?x with _ => _ end) => destruct x
  | |- forall _, _ => intro
  | |- returns _ => solve [eauto with bm_keeps]
  | |- returns _ => progress autounfold with bm_ops
  end.

Ltac returns_tac := repeat returns_step.

Section Calm.

Variable w : World.
Hypothesis Hcalm : calm w.

Lemma call_returns : forall t, exists a, w_call w t = Ret a.
Proof. intros t. exists tt. apply Hcalm. Qed.

Lemma pairing_returns : forall t, exists b, w_pairing w t = Ret b.
Proof. apply Hcalm. Qed.

#[local] Hint Resolve call_returns pairing_returns : core.

Lemma scan_for_glasses_returns : returns (scan_for_glasses w).
Proof. unfold scan_for_glasses. returns_tac. Qed.

(** The try block of an attempt either stores a connected client for its
    side and returns [True], or leaves both clients alone. *)
Lemma attempt_body_links side address attempt l r :
  hoare (links l r) (attempt_body w side address attempt)
        (fun res st =>
           match res with
           | Some b => b = true
                       /\ up side st
                       /\ match side with
                          | Left => right_client st = r
                          | Right => left_client st = l
                          end
           | None => links l r st
           end)
        (links l r).
Proof.
  unfold attempt_body.
  eapply hoare_bind.
  { apply (hoare_keeps clients_kept) with (Q := links l r);
      [keeps_tac; clients_field | apply links_kept | apply links_kept]. }
  intros ?. eapply hoare_bind.
  { apply (hoare_keeps clients_kept) with (Q := links l r);
      [keeps_tac; clients_field | apply links_kept | apply links_kept]. }
  intros client. destruct (c_connected client) eqn:Hconn.
  - eapply hoare_bind.
    { apply (hoare_keeps clients_kept) with (Q := links l r);
        [keeps_tac; clients_field | apply links_kept | apply links_kept]. }
    intros [|].
    + intros st [Hl Hr]. unfold bind, set_side_client, modify, emit, ask.
      cbn. destruct Hcalm as [Hcall _]. rewrite Hcall.
      destruct side; cbn; unfold up; cbn; rewrite Hconn; auto.
    + eapply hoare_bind.
      { apply (hoare_keeps clients_kept) with (Q := links l r);
          [keeps_tac; clients_field | apply links_kept | apply links_kept]. }
      intros ?. apply hoare_ret. auto.
  - apply hoare_ret. auto.
Qed.

Lemma connect_attempt_links side address attempt l r :
  hoare (links l r) (connect_attempt w side address attempt)
        (fun res st =>
           match res with
           | Some b => b = true
                       /\ up side st
                       /\ match side with
                          | Left => right_client st = r
                          | Right => left_client st = l
                          end
           | None => links l r st
           end)
        (fun _ => False).
Proof.
  unfold connect_attempt.
  apply hoare_try with (E' := links l r).
  - eapply hoare_bind; [apply attempt_body_links |].
    intros [b |].
    + apply hoare_ret. auto.
    + eapply hoare_bind.
      { apply (hoare_keeps clients_kept) with (Q := links l r);
          [keeps_tac; clients_field | apply links_kept | apply links_kept]. }
      intros ?. apply hoare_ret. auto.
  - intros e st H. rewrite attempt_failed_run.
    destruct (_ <? _)%Z; exact H.
Qed.

Lemma attempts_links side address idx l r :
  hoare (links l r) (for_each (connect_attempt w side address) idx)
        (fun res st =>
           match res with
           | Some b => b = true
                       /\ up side st
                       /\ match side with
                          | Left => right_client st = r
                          | Right => left_client st = l
                          end
           | None => links l r st
           end)
        (fun _ => False).
Proof.
  induction idx as [| i rest IH]; simpl.
  - apply hoare_ret. auto.
  - eapply hoare_bind; [apply connect_attempt_links |].
    intros [b |]; [apply hoare_ret; auto | exact IH].
Qed.

(** A per-side connect that returns [True] has stored a connected client
    for its side; in every case the other side is left alone, and a
    connect that returns [False] leaves both alone. *)
Lemma _connect_glass_links side l r :
  hoare (links l r) (_connect_glass w side)
        (fun b st =>
           if b
           then up side st
                /\ match side with
                   | Left => right_client st = r
                   | Right => left_client st = l
                   end
           else links l r st)
        (fun _ => False).
Proof.
  unfold _connect_glass.
  apply hoare_try with (E' := fun _ => False); [| intros e st []].
  eapply hoare_bind.
  { apply (hoare_quiet clients_kept) with (Q := links l r);
      [keeps_tac; clients_field | returns_tac | apply links_kept]. }
  intros cfg. destruct (negb (truthy (side_address side cfg))).
  - apply hoare_ret. auto.
  - eapply hoare_bind; [apply attempts_links |].
    intros [b |]; apply hoare_ret; [| auto].
    intros st (-> & H). exact H.
Qed.

(** From two closed links, [connect_both] returns flags that agree with
    the links. *)
Lemma connect_both_sync :
  hoare (fun st => closed Left st /\ closed Right st) (connect_both w)
        in_sync (fun _ => False).
Proof.
  intros st [Hl Hr]. unfold connect_both, bind.
  pose proof (_connect_glass_links Left (left_client st) (right_client st)
                st (conj eq_refl eq_refl)) as H1.
  destruct (_connect_glass w Left st) as [[b1 | e] st1]; [| destruct H1].
  pose proof (_connect_glass_links Right (left_client st1) (right_client st1)
                st1 (conj eq_refl eq_refl)) as H2.
  destruct (_connect_glass w Right st1) as [[b2 | e] st2]; [| destruct H2].
  simpl. unfold in_sync, up, closed in *. simpl in *.
  destruct b1, b2; simpl.
  - destruct H1 as [U1 O1], H2 as [U2 O2]. rewrite O2. auto.
  - destruct H1 as [U1 O1], H2 as [L2 R2]. rewrite L2, R2, O1. auto.
  - destruct H1 as [L1 R1], H2 as [U2 O2]. rewrite O2, L1. auto.
  - destruct H1 as [L1 R1], H2 as [L2 R2]. rewrite L2, R2, L1, R1. auto.
Qed.

Lemma in_sync_kept c st st' :
  in_sync c st -> clients_kept st st' -> in_sync c st'.
Proof.
  intros [Hl Hr] [Kl Kr]. unfold same in *. split; congruence.
Qed.

Lemma closed_kept st st' :
  closed Left st /\ closed Right st -> clients_kept st st' ->
  closed Left st' /\ closed Right st'.
Proof.
  intros [Hl Hr] [Kl Kr]. unfold closed, same in *. simpl in *.
  split; congruence.
Qed.

Lemma in_sync_closed st :
  in_sync (false, false) st <-> closed Left st /\ closed Right st.
Proof. unfold in_sync, closed. simpl. tauto. Qed.

(** A part of the coordinator that returns and leaves the clients alone. *)
Ltac quiet_step :=
  match goal with
  | |- hoare (in_sync ?c) _ _ _ =>
      apply (hoare_quiet clients_kept) with (Q := in_sync c);
      [keeps_tac; clients_field | returns_tac | apply in_sync_kept]
  | |- hoare (fun st => closed Left st /\ closed Right st) _ _ _ =>
      apply (hoare_quiet clients_kept)
        with (Q := fun st => closed Left st /\ closed Right st);
      [keeps_tac; clients_field | returns_tac | apply closed_kept]
  end.

Lemma strategy1_sync :
  hoare (fun st => closed Left st /\ closed Right st) (strategy1 w)
        in_sync (fun _ => False).
Proof.
  unfold strategy1.
  eapply hoare_bind; [quiet_step |]. intros cfg.
  destruct (truthy (left_address cfg) && truthy (right_address cfg)).
  - apply connect_both_sync.
  - apply hoare_ret. intros st H. apply in_sync_closed, H.
Qed.

Lemma strategy2_sync c :
  hoare (in_sync c) (strategy2 w c) in_sync (fun _ => False).
Proof.
  unfold strategy2. destruct (negb (fst c) && negb (snd c)) eqn:Hc.
  - assert (c = (false, false)) as ->.
    { destruct c as [[|] [|]]; simpl in Hc; congruence. }
    eapply hoare_bind; [quiet_step |]. intros ?.
    eapply hoare_bind; [quiet_step |]. intros [|].
    + apply hoare_pre with (P := fun st => closed Left st /\ closed Right st);
        [intros st H; apply in_sync_closed, H | apply connect_both_sync].
    + apply hoare_ret. auto.
  - apply hoare_ret. auto.
Qed.

Lemma strategy3_sync c :
  hoare (in_sync c) (strategy3 w c) in_sync (fun _ => False).
Proof.
  unfold strategy3. destruct (negb (fst c) && negb (snd c)) eqn:Hc.
  - assert (c = (false, false)) as ->.
    { destruct c as [[|] [|]]; simpl in Hc; congruence. }
    eapply hoare_bind; [quiet_step |]. intros cfg.
    eapply hoare_bind; [quiet_step |]. intros ?.
    eapply hoare_bind.
    { apply (hoare_quiet clients_kept) with (Q := in_sync (false, false));
        [keeps_tac; clients_field | apply scan_for_glasses_returns
        | apply in_sync_kept]. }
    intros [|].
    + apply hoare_pre with (P := fun st => closed Left st /\ closed Right st);
        [intros st H; apply in_sync_closed, H | apply connect_both_sync].
    + eapply hoare_bind; [quiet_step |]. intros ?.
      eapply hoare_bind; [quiet_step |]. intros ?.
      apply hoare_ret. auto.
  - apply hoare_ret. auto.
Qed.

(** What dropping a client does when closing the link does not raise. *)
Lemma drop_client_links side flag st :
  exists st',
    drop_client w side flag st = (Ret tt, st')
    /\ conn st' = conn st
    /\ side_client side st'
       = (if flag then None else side_client side st)
    /\ match side with
       | Left => right_client st' = right_client st
       | Right => left_client st' = left_client st
       end.
Proof.
  destruct Hcalm as [Hcall _].
  unfold drop_client. rewrite bind_gets.
  destruct (side_client side st) as [client |] eqn:Hc.
  - destruct flag.
    + unfold client_disconnect, bind, emit, modify, ask, set_side_client.
      cbn. rewrite Hcall. destruct side; cbn; eauto 10.
    + eexists. split; [reflexivity |]. rewrite Hc.
      destruct side; auto.
  - eexists. split; [reflexivity |]. rewrite Hc.
    destruct flag, side; auto.
Qed.

Lemma strategy4_sync c :
  hoare (in_sync c) (strategy4 w c)
        (fun c' st => in_sync c' st
                      \/ ((closed Left st /\ closed Right st)
                          /\ fst c' && snd c' = false))
        (fun _ => False).
Proof.
  unfold strategy4.
  destruct ((fst c && negb (snd c)) || (snd c && negb (fst c))) eqn:Hc.
  - eapply hoare_bind; [quiet_step |]. intros ?.
    eapply hoare_bind with
      (Q := fun _ st => closed Left st
                        /\ client_is_connected (right_client st) = snd c).
    { intros st [Hl Hr].
      destruct (drop_client_links Left (fst c) st) as (st1 & E1 & _ & S1 & O1).
      rewrite E1. simpl in S1. unfold closed. simpl.
      rewrite S1, O1, Hr. split; [| reflexivity].
      destruct (fst c); [reflexivity | exact Hl]. }
    intros ?.
    eapply hoare_bind with
      (Q := fun _ st => closed Left st /\ closed Right st).
    { intros st [Hl Hr].
      destruct (drop_client_links Right (snd c) st) as (st1 & E1 & _ & S1 & O1).
      rewrite E1. simpl in S1. unfold closed in *. simpl in *.
      rewrite S1, O1. split; [exact Hl |].
      destruct (snd c); [reflexivity | exact Hr]. }
    intros ?.
    eapply hoare_bind.
    { apply (hoare_quiet clients_kept)
        with (Q := fun st => closed Left st /\ closed Right st);
        [keeps_tac; clients_field | apply scan_for_glasses_returns
        | apply closed_kept]. }
    intros [|].
    + eapply hoare_post; [| apply connect_both_sync]. intros c' st H. left.
      exact H.
    + apply hoare_ret. intros st H. right. split; [exact H |].
      destruct c as [[|] [|]]; simpl in *; congruence.
  - apply hoare_ret. auto.
Qed.

Lemma evaluate_sync c :
  hoare (fun st => in_sync c st
                   \/ ((closed Left st /\ closed Right st)
                       /\ fst c && snd c = false))
        (evaluate w c)
        (fun b st =>
           if b then up Left st /\ up Right st /\ conn st = CONNECTED
           else closed Left st /\ closed Right st /\ conn st = DISCONNECTED)
        (fun _ => False).
Proof.
  destruct Hcalm as [Hcall _].
  unfold evaluate. destruct (fst c && snd c) eqn:Hc.
  - intros st [[Hl Hr] | [_ Hf]]; [| discriminate].
    unfold bind, emit, modify, ask, set_connection_state. cbn.
    rewrite Hcall. cbn. unfold up. simpl.
    destruct c as [[|] [|]]; simpl in *; try discriminate. auto.
  - intros st HJ. unfold drop_client_quietly, try_catch, bind.
    destruct (drop_client_links Left (fst c) st) as (st1 & E1 & C1 & S1 & O1).
    rewrite E1.
    destruct (drop_client_links Right (snd c) st1)
      as (st2 & E2 & C2 & S2 & O2).
    rewrite E2. cbn. unfold closed. simpl in *.
    rewrite S2, O2, S1, O1.
    destruct HJ as [[Hl Hr] | [[Hl Hr] _]]; unfold closed in *; simpl in *;
      destruct (fst c), (snd c); simpl; auto.
Qed.

(** With no effect call raising and both links closed at the start,
    [connect_to_glasses] ends with both links up and the state Connected,
    or with both links closed and the state Disconnected. *)
Lemma connect_to_glasses_all_or_nothing st :
  closed Left st -> closed Right st ->
  (fst (connect_to_glasses w st) = Ret true
   /\ up Left (snd (connect_to_glasses w st))
   /\ up Right (snd (connect_to_glasses w st))
   /\ conn (snd (connect_to_glasses w st)) = CONNECTED)
  \/ (fst (connect_to_glasses w st) = Ret false
      /\ closed Left (snd (connect_to_glasses w st))
      /\ closed Right (snd (connect_to_glasses w st))
      /\ conn (snd (connect_to_glasses w st)) = DISCONNECTED).
Proof.
  intros Hl Hr.
  assert (H : hoare (fun st => closed Left st /\ closed Right st)
                (connect_to_glasses w)
                (fun b st =>
                   if b then up Left st /\ up Right st /\ conn st = CONNECTED
                   else closed Left st /\ closed Right st
                        /\ conn st = DISCONNECTED)
                (fun _ => False)).
  { unfold connect_to_glasses.
    apply hoare_try with (E' := fun _ => False); [| intros e s []].
    eapply hoare_bind; [quiet_step |]. intros ?.
    eapply hoare_bind; [quiet_step |]. intros ?.
    eapply hoare_bind; [apply strategy1_sync |]. intros c1.
    eapply hoare_bind; [apply strategy2_sync |]. intros c2.
    eapply hoare_bind; [apply strategy3_sync |]. intros c3.
    eapply hoare_bind; [apply strategy4_sync |]. intros c4.
    apply evaluate_sync. }
  specialize (H st (conj Hl Hr)).
  destruct (connect_to_glasses w st) as [[[|] | e] st1]; simpl in *;
    [left | right | destruct H]; tauto.
Qed.

End Calm.

(** ** What holds of every scan *)

Ltac run_monad :=
  repeat (progress (unfold try_catch, bind, emit, ask, modify, gets, ret;
                    cbn)).

(** A scan that returns true has saved: the persisted store is the
    configuration. *)
Lemma scan_success_persists (w : World) (st : St) :
  fst (scan_for_glasses w st) = Ret true ->
  persisted (snd (scan_for_glasses w st))
  = config (snd (scan_for_glasses w st)).
Proof.
  assert (H : hoare (fun _ => True) (scan_for_glasses w)
                (fun b st => b = true -> persisted st = config st)
                (fun _ => False)).
  { unfold scan_for_glasses.
    apply hoare_try with (E' := fun _ => True).
    - eapply hoare_bind; [apply hoare_any |]. intros ?.
      eapply hoare_bind; [apply hoare_any |]. intros ?.
      eapply hoare_bind; [apply hoare_any |]. intros ?.
      eapply hoare_bind; [apply hoare_any |]. intros found.
      destruct (negb (fst found && snd found)).
      + eapply hoare_bind; [apply hoare_any |]. intros ?.
        apply hoare_ret. discriminate.
      + intros s _. unfold save, bind, emit, ask, modify. cbn.
        destruct (w_call w (tick s)); simpl; auto.
    - intros e. eapply hoare_bind.
      + apply hoare_total. apply returns_modify.
      + intros ?. apply hoare_ret. discriminate. }
  specialize (H st I).
  destruct (scan_for_glasses w st) as [[b | e] st1]; simpl in *;
    [| destruct H].
  intros Hb. injection Hb as ->. apply H. reflexivity.
Qed.

(** When Windows reports nothing usable and the radio scan sees no
    product device, the scan returns false, the state is Disconnected
    and the address store is untouched. *)
Lemma scan_without_match (w : World) (st : St) (r1 r2 : Completed)
  (devices : list Device) :
  w_subprocess w (tick st) = Ret r1 -> usable r1 = false ->
  w_subprocess w (S (tick st)) = Ret r2 -> usable r2 = false ->
  w_discover w (S (S (tick st))) = Ret devices ->
  List.filter is_g1_device devices = [] ->
  fst (scan_for_glasses w st) = Ret false
  /\ conn (snd (scan_for_glasses w st)) = DISCONNECTED
  /\ config (snd (scan_for_glasses w st)) = config st
  /\ persisted (snd (scan_for_glasses w st)) = persisted st.
Proof.
  intros H1 U1 H2 U2 Hd Hf.
  unfold scan_for_glasses, set_connection_state,
    _get_windows_connected_g1_devices.
  run_monad. rewrite H1. run_monad. rewrite U1. run_monad.
  rewrite H2. run_monad. rewrite U2. run_monad. rewrite Hd.
  unfold scan_available, bind. rewrite scan_fold_filter, Hf. cbn.
  repeat split; reflexivity.
Qed.

(** ** Strategy 3 and the stored addresses *)

(** When the scan of Strategy 3 fails, the addresses read before the
    clearing are written back to the configuration. *)
Lemma strategy3_restores (w : World) (st : St) :
  fst (clear_addresses w st) = Ret tt ->
  fst (scan_for_glasses w (snd (clear_addresses w st))) = Ret false ->
  fst (strategy3 w (false, false) st) = Ret (false, false)
  /\ left_address (config (snd (strategy3 w (false, false) st)))
     = left_address (config st)
  /\ right_address (config (snd (strategy3 w (false, false) st)))
     = right_address (config st).
Proof.
  intros Hc Hs. unfold strategy3. simpl. rewrite bind_gets. unfold bind.
  destruct (clear_addresses w st) as [[[] | e] st1]; simpl in *;
    [| discriminate].
  destruct (scan_for_glasses w st1) as [[[|] | e] st2]; simpl in *;
    try discriminate.
  repeat split; reflexivity.
Qed.

(** ** Further properties of the per-side connect *)

Ltac run_verify :=
  repeat (progress (unfold try_catch, bind, emit, ask, modify, gets, ret,
                      sleep;
                    cbn;
                    change (Z.of_nat 0 <? 3 - 1)%Z with true;
                    change (Z.of_nat 1 <? 3 - 1)%Z with true;
                    change (Z.of_nat 2 <? 3 - 1)%Z with false;
                    cbv iota)).

(** Verification succeeds exactly when one of its at most three lookups
    finds the service with both characteristics; it never raises, makes
    one call per lookup, and backs off (1 s) only after a lookup that
    raised, never after one that found nothing. *)
Theorem verify_connection_three_lookups (w : World) (client : Client)
  (side : Side) (st : St) :
  let l0 := w_lookup w (tick st) in
  let l1 := w_lookup w (S (tick st)) in
  let l2 := w_lookup w (S (S (tick st))) in
  let r := _verify_connection w client side st in
  fst r = Ret (lookup_ok l0 || lookup_ok l1 || lookup_ok l2)
  /\ tick st < tick (snd r) <= tick st + 3
  /\ (if raised l0 || (negb (lookup_ok l0) && raised l1) then True
      else sleeps (events (snd r)) = sleeps (events st))
  /\ left_client (snd r) = left_client st
  /\ right_client (snd r) = right_client st
  /\ config (snd r) = config st.
Proof.
  cbv zeta. unfold _verify_connection, verify_attempt, range. simpl seq.
  run_verify.
  destruct (w_lookup w (tick st)) as [[] | e0]; run_verify;
    try (split; [reflexivity | split; [lia | repeat split; reflexivity]]);
    destruct (w_lookup w (S (tick st))) as [[] | e1]; run_verify;
    try (split; [reflexivity | split; [lia | repeat split; reflexivity]]);
    destruct (w_lookup w (S (S (tick st)))) as [[] | e2]; run_verify;
    (split; [reflexivity | split; [lia | repeat split; reflexivity]]).
Qed.

Section SideIsolation.

Variable w : World.

Lemma _connect_glass_other s : keeps (other_side_kept s) (_connect_glass w s).
Proof.
  destruct s; keeps_tac; intros;
    unfold other_side_kept, config_kept, conn_kept, both, same; cbn;
    repeat split; reflexivity.
Qed.

Lemma _handle_disconnect_other s :
  keeps (other_side_kept s) (_handle_disconnect w s).
Proof.
  destruct s; keeps_tac; intros;
    unfold other_side_kept, config_kept, conn_kept, both, same; cbn;
    repeat split; reflexivity.
Qed.

End SideIsolation.

(** A connect or an automatic reconnect of one side never touches the
    client of the other side, the configuration, the persisted store or
    the connection state, whatever the BLE stack answers. *)
Theorem one_side_operations_are_isolated (w : World) (side : Side) (st : St) :
  side_client (other_side side) (snd (_connect_glass w side st))
  = side_client (other_side side) st
  /\ config (snd (_connect_glass w side st)) = config st
  /\ persisted (snd (_connect_glass w side st)) = persisted st
  /\ conn (snd (_connect_glass w side st)) = conn st
  /\ side_client (other_side side) (snd (_handle_disconnect w side st))
     = side_client (other_side side) st
  /\ config (snd (_handle_disconnect w side st)) = config st
  /\ persisted (snd (_handle_disconnect w side st)) = persisted st
  /\ conn (snd (_handle_disconnect w side st)) = conn st.
Proof.
  destruct (_connect_glass_other w side st) as (H1 & (H2 & H3) & H4 & _).
  destruct (_handle_disconnect_other w side st) as (K1 & (K2 & K3) & K4 & _).
  unfold same in *. repeat split; assumption.
Qed.

(** A link opened through the fallback carries no disconnect callback:
    when the direct open fails with a "not found" error and the fallback
    open connects and verifies, [_connect_glass] returns true and the
    client it stores has no callback, so a later drop of this link does
    not start the automatic reconnect. *)
Theorem fallback_client_has_no_callback (w : World) (side : Side) (st : St)
  (address e : string) :
  side_address side (config st) = Some address ->
  PyStr.nonempty address = true ->
  1 <= reconnect_attempts (config st) ->
  w_open w (tick st) = Exc e ->
  PyStr.contains "not found" (PyStr.lower e) = true ->
  w_open w (S (tick st)) = Ret true ->
  w_lookup w (S (S (tick st))) = Ret LkOk ->
  w_call w (S (S (S (tick st)))) = Ret tt ->
  fst (_connect_glass w side st) = Ret true
  /\ side_client side (snd (_connect_glass w side st))
     = Some {| c_address := address; c_callback := None;
               c_connected := true |}.
Proof.
  intros Ha Hn HN H0 Hnf H1 H2 H3.
  assert (H : exists st',
             _connect_glass w side st = (Ret true, st')
             /\ side_client side st'
                = Some {| c_address := address; c_callback := None;
                          c_connected := true |}).
  { destruct (reconnect_attempts (config st)) as [| n] eqn:EN; [lia |].
    destruct side; eexists; (split; [| shelve]);
      unfold _connect_glass, try_catch at 1; rewrite bind_gets;
      rewrite Ha; unfold truthy, py_str; rewrite Hn, EN;
      unfold range; simpl seq; simpl for_each;
      unfold connect_attempt, attempt_body, open_client,
        _verify_connection, verify_attempt, range, retry_sleep,
        set_side_client, client_disconnect;
      simpl seq; run_verify; rewrite H0; run_verify; rewrite Hnf;
      run_verify; rewrite H1; run_verify; rewrite H2; run_verify;
      rewrite H3; run_verify; reflexivity.
    Unshelve. all: reflexivity. }
  destruct H as (st' & -> & Hc). split; [reflexivity | exact Hc].
Qed.

Lemma fallback_client_has_no_callback_witness :
  side_client Left
    (snd (_connect_glass MoreScenarios.found_on_fallback Left
            (init Scenarios.stored)))
  = Some {| c_address := "AA:AA:AA:AA:AA:01"; c_callback := None;
            c_connected := true |}.
Proof.
  apply (fallback_client_has_no_callback MoreScenarios.found_on_fallback Left
           (init Scenarios.stored) "AA:AA:AA:AA:AA:01"
           "Device with address was not found");
    try reflexivity.
  simpl. lia.
Defined.

(** ** Further properties of the coordinator *)

Lemma hoare_answered (m : M bool) (yes no : St -> Prop) st :
  hoare (fun _ => True) m (fun b s => if b then yes s else no s)
        (fun _ => False) ->
  answered (m st) yes no.
Proof.
  intros H. specialize (H st I). unfold answered.
  destruct (m st) as [[[|] | e] st1]; exact H.
Qed.

Section Outcomes.

Variable w : World.

Lemma drop_client_quietly_returns side flag :
  returns (drop_client_quietly w side flag).
Proof. apply returns_try. intros e. apply returns_ret. Qed.

Lemma evaluate_outcome c :
  hoare (fun _ => True) (evaluate w c)
        (fun b st => if b
                     then conn st = CONNECTED /\ monitoring_task st = true
                     else conn st = DISCONNECTED)
        (fun _ => True).
Proof.
  unfold evaluate. destruct (fst c && snd c).
  - intros st _. run_monad.
    destruct (w_call w (tick st)); run_monad; [split; reflexivity | exact I].
  - eapply hoare_bind.
    { apply hoare_total, drop_client_quietly_returns. }
    intros ?. eapply hoare_bind.
    { apply hoare_total, drop_client_quietly_returns. }
    intros ? st _. reflexivity.
Qed.

Lemma connect_to_glasses_outcome :
  hoare (fun _ => True) (connect_to_glasses w)
        (fun b st => if b
                     then conn st = CONNECTED /\ monitoring_task st = true
                     else conn st = DISCONNECTED)
        (fun _ => False).
Proof.
  unfold connect_to_glasses.
  apply hoare_try with (E' := fun _ => True).
  - eapply hoare_bind; [apply hoare_any |]. intros ?.
    eapply hoare_bind; [apply hoare_any |]. intros ?.
    eapply hoare_bind; [apply hoare_any |]. intros ?.
    eapply hoare_bind; [apply hoare_any |]. intros ?.
    eapply hoare_bind; [apply hoare_any |]. intros ?.
    eapply hoare_bind; [apply hoare_any |]. intros c.
    apply evaluate_outcome.
  - intros e st _. reflexivity.
Qed.

Lemma scan_for_glasses_outcome p0 :
  hoare (fun st => persisted st = p0) (scan_for_glasses w)
        (fun b st => if b
                     then conn st = SCANNING /\ persisted st = config st
                     else conn st = DISCONNECTED /\ persisted st = p0)
        (fun _ => False).
Proof.
  assert (Hcarry : forall st st',
             persisted st = p0 /\ conn st = SCANNING ->
             both (same persisted) (same conn) st st' ->
             persisted st' = p0 /\ conn st' = SCANNING).
  { intros st st' [Hp Hc] [Kp Kc]. unfold same in *. split; congruence. }
  assert (Hexc : forall st st',
             persisted st = p0 /\ conn st = SCANNING ->
             both (same persisted) (same conn) st st' ->
             persisted st' = p0).
  { intros st st' H K. apply (Hcarry st st' H K). }
  unfold scan_for_glasses.
  apply hoare_try with (E' := fun st => persisted st = p0).
  - eapply hoare_bind with
      (Q := fun _ st => persisted st = p0 /\ conn st = SCANNING).
    { intros st Hp. split; [exact Hp | reflexivity]. }
    intros ?. eapply hoare_bind.
    { apply (hoare_keeps (both (same persisted) (same conn)));
        [keeps_tac; intros; split; reflexivity | exact Hcarry | exact Hexc]. }
    intros devices. eapply hoare_bind.
    { apply (hoare_keeps (both (same persisted) (same conn)));
        [keeps_tac; intros; split; reflexivity | exact Hcarry | exact Hexc]. }
    intros found. eapply hoare_bind.
    { apply (hoare_keeps (both (same persisted) (same conn)));
        [keeps_tac; intros; split; reflexivity | exact Hcarry | exact Hexc]. }
    intros found'. destruct (negb (fst found' && snd found')).
    + intros st [Hp _]. split; [reflexivity | exact Hp].
    + intros st [Hp Hc]. unfold save. run_monad.
      destruct (w_call w (tick st)); run_monad;
        [split; [exact Hc | reflexivity] | exact Hp].
  - intros e st Hp. split; [reflexivity | exact Hp].
Qed.

End Outcomes.

(** [connect_to_glasses] always answers, and its answer agrees with the
    state it leaves: true with the state Connected and the monitoring
    task registered, false with the state Disconnected. *)
Theorem connect_answer_matches_state (w : World) (st : St) :
  answered (connect_to_glasses w st)
    (fun st' => conn st' = CONNECTED /\ monitoring_task st' = true)
    (fun st' => conn st' = DISCONNECTED).
Proof. apply hoare_answered, connect_to_glasses_outcome. Qed.

(** [scan_for_glasses] always answers.  A scan that answers true leaves
    the state Scanning (it is not set back) and has persisted the
    configuration; a scan that answers false leaves the state
    Disconnected and the persisted store exactly as it was. *)
Theorem scan_answer_matches_state (w : World) (st : St) :
  answered (scan_for_glasses w st)
    (fun st' => conn st' = SCANNING /\ persisted st' = config st')
    (fun st' => conn st' = DISCONNECTED /\ persisted st' = persisted st).
Proof.
  pose proof (scan_for_glasses_outcome w (persisted st) st eq_refl) as H.
  unfold answered.
  destruct (scan_for_glasses w st) as [[[|] | e] st1]; exact H.
Qed.

(** Discovery never opens or closes a link and never touches the
    manager's bookkeeping: both clients, the shutdown flag, the error
    counter and message and the monitoring task are as before, and no
    transport open is among the events it adds. *)
Theorem scan_touches_no_link (w : World) (st : St) :
  left_client (snd (scan_for_glasses w st)) = left_client st
  /\ right_client (snd (scan_for_glasses w st)) = right_client st
  /\ shutting_down (snd (scan_for_glasses w st)) = shutting_down st
  /\ error_count (snd (scan_for_glasses w st)) = error_count st
  /\ last_error (snd (scan_for_glasses w st)) = last_error st
  /\ monitoring_task (snd (scan_for_glasses w st)) = monitoring_task st
  /\ opens (events (snd (scan_for_glasses w st))) = opens (events st).
Proof.
  assert (H : keeps (both clients_kept
                       (both bookkeeping
                          (both (same monitoring_task)
                             (same (fun s => opens (events s))))))
                (scan_for_glasses w)).
  { keeps_tac; intros;
      unfold clients_kept, bookkeeping, both, same; cbn;
      repeat split; reflexivity. }
  destruct (H st) as ((Hl & Hr) & (Hs & He & Hm & _) & Ht & Ho).
  unfold same in *. repeat split; assumption.
Qed.

(** ** Teardown *)

Section Teardown.

Variable w : World.

(** What [disconnect] does when no effect call raises. *)
Lemma disconnect_calm_run st :
  calm w ->
  exists st',
    disconnect w st = (Ret tt, st')
    /\ left_client st'
       = (if client_is_connected (left_client st) then None
          else left_client st)
    /\ right_client st'
       = (if client_is_connected (right_client st) then None
          else right_client st)
    /\ conn st' = DISCONNECTED
    /\ shutting_down st' = true
    /\ monitoring_task st' = false
    /\ config st' = config st
    /\ persisted st' = persisted st.
Proof.
  intros [Hcall _].
  unfold disconnect, disconnect_side, client_disconnect, set_side_client,
    set_connection_state, when.
  destruct (monitoring_task st) eqn:Hm;
    destruct (left_client st) as [[la lc [|]] |] eqn:Hl;
    destruct (right_client st) as [[ra rc [|]] |] eqn:Hr;
    run_monad;
    repeat (progress (rewrite ?Hcall, ?Hm, ?Hl, ?Hr; run_monad));
    eexists; (split; [reflexivity |]); cbn; rewrite ?Hm, ?Hl, ?Hr; cbn;
    repeat split; reflexivity.
Qed.

End Teardown.

(** When no effect call raises, [disconnect] closes what was connected:
    a connected client is closed and dropped, a stored client that was
    not connected stays stored, the state is Disconnected and the
    monitoring task is gone; the address store is not touched. *)
Theorem disconnect_closes_both_links (w : World) (st : St) :
  calm w ->
  fst (disconnect w st) = Ret tt
  /\ closed Left (snd (disconnect w st))
  /\ closed Right (snd (disconnect w st))
  /\ left_client (snd (disconnect w st))
     = (if client_is_connected (left_client st) then None
        else left_client st)
  /\ right_client (snd (disconnect w st))
     = (if client_is_connected (right_client st) then None
        else right_client st)
  /\ conn (snd (disconnect w st)) = DISCONNECTED
  /\ monitoring_task (snd (disconnect w st)) = false
  /\ config (snd (disconnect w st)) = config st
  /\ persisted (snd (disconnect w st)) = persisted st.
Proof.
  intros Hcalm.
  destruct (disconnect_calm_run w st Hcalm)
    as (st' & -> & Hl & Hr & Hc & _ & Hm & Hg & Hp).
  simpl. unfold closed. simpl. rewrite Hl, Hr.
  repeat split; try assumption.
  - destruct (client_is_connected (left_client st)) eqn:E;
      [reflexivity | exact E].
  - destruct (client_is_connected (right_client st)) eqn:E;
      [reflexivity | exact E].
Qed.

Lemma disconnect_closes_both_links_witness :
  left_client (snd (disconnect Scenarios.silence Scenarios.linked)) = None
  /\ right_client (snd (disconnect Scenarios.silence Scenarios.linked)) = None.
Proof.
  assert (Hcalm : calm Scenarios.silence).
  { split; intros t; [reflexivity | exists false; reflexivity]. }
  destruct (disconnect_closes_both_links Scenarios.silence Scenarios.linked
              Hcalm) as (_ & _ & _ & Hl & Hr & _).
  split; [exact Hl | exact Hr].
Defined.

(** When stopping the command layer raises, [disconnect] swallows the
    error and stops there: the shutdown flag is set and the monitoring
    task cancelled, but no link is closed and the connection state is
    not written. *)
Theorem disconnect_stops_at_failed_stop (w : World) (st : St) (e : string) :
  w_call w (tick st) = Exc e ->
  fst (disconnect w st) = Ret tt
  /\ left_client (snd (disconnect w st)) = left_client st
  /\ right_client (snd (disconnect w st)) = right_client st
  /\ conn (snd (disconnect w st)) = conn st
  /\ conn_log (snd (disconnect w st)) = conn_log st
  /\ shutting_down (snd (disconnect w st)) = true
  /\ monitoring_task (snd (disconnect w st)) = false.
Proof.
  intros He.
  unfold disconnect, when.
  destruct (monitoring_task st) eqn:Hm; run_monad; rewrite ?Hm; run_monad;
    rewrite He; run_monad; rewrite ?Hm; repeat split; reflexivity.
Qed.

Lemma disconnect_stops_at_failed_stop_witness :
  left_client (snd (disconnect MoreScenarios.stop_fails Scenarios.linked))
  = left_client Scenarios.linked
  /\ conn (snd (disconnect MoreScenarios.stop_fails Scenarios.linked))
     = conn Scenarios.linked.
Proof.
  destruct (disconnect_stops_at_failed_stop MoreScenarios.stop_fails
              Scenarios.linked "command manager is not running" eq_refl)
    as (_ & Hl & _ & Hc & _).
  split; [exact Hl | exact Hc].
Defined.

(** ** All or nothing *)

(** When no effect call raises and both links are closed at the start,
    [connect_to_glasses] never ends with exactly one side connected: it
    answers true with both links up and the state Connected, or false
    with both links closed and the state Disconnected. *)
Theorem connect_is_all_or_nothing (w : World) (st : St) :
  calm w -> closed Left st -> closed Right st ->
  answered (connect_to_glasses w st)
    (fun st' => up Left st' /\ up Right st' /\ conn st' = CONNECTED)
    (fun st' => closed Left st' /\ closed Right st'
                /\ conn st' = DISCONNECTED).
Proof.
  intros Hcalm Hl Hr. unfold answered.
  destruct (connect_to_glasses_all_or_nothing w Hcalm st Hl Hr)
    as [(-> & H) | (-> & H)]; exact H.
Qed.

Lemma connect_is_all_or_nothing_witness :
  answered (connect_to_glasses Scenarios.right_lens_dead
              (init Scenarios.stored))
    (fun st' => up Left st' /\ up Right st' /\ conn st' = CONNECTED)
    (fun st' => closed Left st' /\ closed Right st'
                /\ conn st' = DISCONNECTED).
Proof.
  apply (connect_is_all_or_nothing Scenarios.right_lens_dead
           (init Scenarios.stored)).
  - split; intros t; [reflexivity | exists false; reflexivity].
  - reflexivity.
  - reflexivity.
Defined.

(** [reconnect] is all or nothing from any state when no effect call
    raises: whatever links were up before, it answers true with both
    links up and the state Connected, or false with both links closed
    and the state Disconnected. *)
Theorem reconnect_is_all_or_nothing (w : World) (st : St) :
  calm w ->
  answered (reconnect w st)
    (fun st' => up Left st' /\ up Right st' /\ conn st' = CONNECTED)
    (fun st' => closed Left st' /\ closed Right st'
                /\ conn st' = DISCONNECTED).
Proof.
  intros Hcalm. unfold reconnect, try_catch, bind.
  destruct (disconnect_calm_run w st Hcalm)
    as (st1 & -> & Hl & Hr & _).
  assert (Hcl : closed Left st1).
  { unfold closed. simpl. rewrite Hl.
    destruct (client_is_connected (left_client st)) eqn:E;
      [reflexivity | exact E]. }
  assert (Hcr : closed Right st1).
  { unfold closed. simpl. rewrite Hr.
    destruct (client_is_connected (right_client st)) eqn:E;
      [reflexivity | exact E]. }
  unfold answered.
  destruct (connect_to_glasses_all_or_nothing w Hcalm st1 Hcl Hcr)
    as [(E & H) | (E & H)];
    destruct (connect_to_glasses w st1) as [[b | e] st2]; simpl in *;
    try discriminate; injection E as ->; exact H.
Qed.

Lemma reconnect_is_all_or_nothing_witness :
  answered (reconnect Scenarios.lenses_in_range Scenarios.linked)
    (fun st' => up Left st' /\ up Right st' /\ conn st' = CONNECTED)
    (fun st' => closed Left st' /\ closed Right st'
                /\ conn st' = DISCONNECTED).
Proof.
  apply (reconnect_is_all_or_nothing Scenarios.lenses_in_range
           Scenarios.linked).
  split; intros t; [reflexivity | exists false; reflexivity].
Defined.

(** ** No attempt configured *)

Lemma hoare_pure {A} (F : Prop) (P : St -> Prop) (m : M A)
  (Q : A -> St -> Prop) E :
  (F -> hoare P m Q E) -> hoare (fun st => F /\ P st) m Q E.
Proof. intros H st [HF HP]. apply (H HF), HP. Qed.

Lemma no_attempt_kept st st' :
  no_attempt_configured st ->
  same (fun s => reconnect_attempts (config s)) st st' ->
  no_attempt_configured st'.
Proof. unfold no_attempt_configured, same. congruence. Qed.

Ltac keep_no_attempt :=
  apply (hoare_keeps (same (fun s => reconnect_attempts (config s))))
    with (Q := no_attempt_configured);
  [ keeps_tac; intros; reflexivity | apply no_attempt_kept | auto ].

Section NoAttempt.

Variable w : World.

Lemma _connect_glass_no_attempt side st :
  no_attempt_configured st -> _connect_glass w side st = (Ret false, st).
Proof.
  intros H. unfold _connect_glass, try_catch. rewrite bind_gets.
  destruct (negb (truthy (side_address side (config st)))); [reflexivity |].
  rewrite H. reflexivity.
Qed.

Lemma connect_both_no_attempt :
  hoare no_attempt_configured (connect_both w)
        (fun c st => c = (false, false) /\ no_attempt_configured st)
        (fun _ => True).
Proof.
  intros st H. unfold connect_both, bind.
  rewrite (_connect_glass_no_attempt Left st H).
  rewrite (_connect_glass_no_attempt Right st H). split; auto.
Qed.

Lemma strategy1_no_attempt :
  hoare no_attempt_configured (strategy1 w)
        (fun c st => c = (false, false) /\ no_attempt_configured st)
        (fun _ => True).
Proof.
  unfold strategy1. eapply hoare_bind; [keep_no_attempt |]. intros cfg.
  destruct (truthy (left_address cfg) && truthy (right_address cfg));
    [apply connect_both_no_attempt | apply hoare_ret; auto].
Qed.

Lemma strategy2_no_attempt :
  hoare no_attempt_configured (strategy2 w (false, false))
        (fun c st => c = (false, false) /\ no_attempt_configured st)
        (fun _ => True).
Proof.
  unfold strategy2. simpl.
  eapply hoare_bind; [keep_no_attempt |]. intros ?.
  eapply hoare_bind; [keep_no_attempt |]. intros [|];
    [apply connect_both_no_attempt | apply hoare_ret; auto].
Qed.

Lemma strategy3_no_attempt :
  hoare no_attempt_configured (strategy3 w (false, false))
        (fun c st => c = (false, false) /\ no_attempt_configured st)
        (fun _ => True).
Proof.
  unfold strategy3. simpl.
  eapply hoare_bind; [keep_no_attempt |]. intros cfg.
  eapply hoare_bind; [keep_no_attempt |]. intros ?.
  eapply hoare_bind; [keep_no_attempt |]. intros [|];
    [apply connect_both_no_attempt |].
  eapply hoare_bind; [keep_no_attempt |]. intros ?.
  eapply hoare_bind; [keep_no_attempt |]. intros ?.
  apply hoare_ret. auto.
Qed.

Lemma evaluate_false :
  hoare (fun _ => True) (evaluate w (false, false))
        (fun b _ => b = false) (fun _ => True).
Proof.
  unfold evaluate. simpl.
  eapply hoare_bind; [apply hoare_any |]. intros ?.
  eapply hoare_bind; [apply hoare_any |]. intros ?.
  eapply hoare_bind; [apply hoare_any |]. intros ?.
  apply hoare_ret. auto.
Qed.

Lemma connect_to_glasses_no_attempt :
  hoare no_attempt_configured (connect_to_glasses w)
        (fun b _ => b = false) (fun _ => False).
Proof.
  unfold connect_to_glasses.
  apply hoare_try with (E' := fun _ => True); [| intros e st _; reflexivity].
  eapply hoare_bind; [keep_no_attempt |]. intros ?.
  eapply hoare_bind; [keep_no_attempt |]. intros ?.
  eapply hoare_bind; [apply strategy1_no_attempt |]. intros c1.
  apply hoare_pure. intros ->.
  eapply hoare_bind; [apply strategy2_no_attempt |]. intros c2.
  apply hoare_pure. intros ->.
  eapply hoare_bind; [apply strategy3_no_attempt |]. intros c3.
  apply hoare_pure. intros ->.
  eapply hoare_bind with (Q := fun c _ => c = (false, false)).
  { unfold strategy4. simpl. apply hoare_ret. auto. }
  intros c4 st Hc. subst c4. apply evaluate_false. exact I.
Qed.

End NoAttempt.

(** With [reconnect_attempts] set to 0 nothing can connect: a per-side
    connect answers false and does nothing, the disconnect handler only
    records the error, and [connect_to_glasses] answers false in every
    world, whatever is stored and whatever a scan finds. *)
Theorem zero_attempts_never_connect (w : World) (side : Side) (st : St) :
  reconnect_attempts (config st) = 0 ->
  _connect_glass w side st = (Ret false, st)
  /\ fst (connect_to_glasses w st) = Ret false
  /\ (if shutting_down st then True
      else _handle_disconnect w side st
           = (Ret false,
              with_last_error
                (Some (side_title side ++ " glass disconnected"))
                (with_error_count (S (error_count st)) st))).
Proof.
  intros H. split; [apply _connect_glass_no_attempt, H |]. split.
  - pose proof (connect_to_glasses_no_attempt w st H) as Hc.
    destruct (connect_to_glasses w st) as [[b | e] st1]; simpl in *;
      [congruence | destruct Hc].
  - destruct (shutting_down st) eqn:Hs; [exact I |].
    unfold _handle_disconnect. rewrite bind_gets, Hs.
    unfold record_error. rewrite bind_modify, bind_gets. cbn.
    rewrite H. reflexivity.
Qed.

Lemma zero_attempts_never_connect_witness :
  fst (connect_to_glasses Scenarios.lenses_in_range
         (init MoreScenarios.no_attempts)) = Ret false.
Proof.
  apply (zero_attempts_never_connect Scenarios.lenses_in_range Left
           (init MoreScenarios.no_attempts)).
  reflexivity.
Defined.

(** ** The direct path *)

Lemma bind_run {A B} (m : M A) (k : A -> M B) st a st' :
  m st = (Ret a, st') -> bind m k st = k a st'.
Proof. intros H. unfold bind. rewrite H. reflexivity. Qed.

Section DirectPath.

Variable w : World.

(** A per-side connect whose first open connects and verifies. *)
Lemma _connect_glass_first_attempt side st address :
  side_address side (config st) = Some address ->
  PyStr.nonempty address = true ->
  1 <= reconnect_attempts (config st) ->
  w_open w (tick st) = Ret true ->
  w_lookup w (S (tick st)) = Ret LkOk ->
  w_call w (S (S (tick st))) = Ret tt ->
  _connect_glass w side st
  = (Ret true,
     with_tick (S (S (S (tick st))))
       (with_events
          (EvNotify side :: EvLookup side
           :: EvOpen side address (connection_timeout (config st))
           :: EvAttempt side 0 :: events st)
          (match side with
           | Left => with_left_client
           | Right => with_right_client
           end (Some {| c_address := address; c_callback := Some side;
                        c_connected := true |}) st))).
Proof.
  intros Ha Hn HN H0 H1 H2.
  destruct (reconnect_attempts (config st)) as [| n] eqn:EN; [lia |].
  destruct side;
    unfold _connect_glass, try_catch at 1; rewrite bind_gets;
    rewrite Ha; unfold truthy, py_str; rewrite Hn, EN;
    unfold range; simpl seq; simpl for_each;
    unfold connect_attempt, attempt_body, open_client,
      _verify_connection, verify_attempt, range, retry_sleep,
      set_side_client, client_disconnect;
    simpl seq; run_verify; rewrite H0; run_verify; rewrite H1;
    run_verify; rewrite H2; run_verify; reflexivity.
Qed.

End DirectPath.

(** With both addresses stored and both lenses answering their first
    open, [connect_to_glasses] connects directly: it answers true, the
    state is Connected, each side holds a connected client for its stored
    address with the disconnect callback, and nothing else happens: no
    pairing check, no scan, no save, no sleep, and the address store is
    as before. *)
Theorem direct_connect (w : World) (st : St) (la ra : string) :
  left_address (config st) = Some la -> PyStr.nonempty la = true ->
  right_address (config st) = Some ra -> PyStr.nonempty ra = true ->
  1 <= reconnect_attempts (config st) ->
  w_open w (tick st) = Ret true ->
  w_lookup w (tick st + 1) = Ret LkOk ->
  w_call w (tick st + 2) = Ret tt ->
  w_open w (tick st + 3) = Ret true ->
  w_lookup w (tick st + 4) = Ret LkOk ->
  w_call w (tick st + 5) = Ret tt ->
  w_call w (tick st + 6) = Ret tt ->
  exists st',
    connect_to_glasses w st = (Ret true, st')
    /\ conn st' = CONNECTED
    /\ left_client st'
       = Some {| c_address := la; c_callback := Some Left;
                 c_connected := true |}
    /\ right_client st'
       = Some {| c_address := ra; c_callback := Some Right;
                 c_connected := true |}
    /\ config st' = config st
    /\ persisted st' = persisted st
    /\ rev (events st')
       = (rev (events st)
            ++ [EvAttempt Left 0;
                EvOpen Left la (connection_timeout (config st));
                EvLookup Left; EvNotify Left;
                EvAttempt Right 0;
                EvOpen Right ra (connection_timeout (config st));
                EvLookup Right; EvNotify Right;
                EvCmdStart; EvSpawnMonitor])%list.
Proof.
  intros Hla Hln Hra Hrn HN O1 L1 C1 O2 L2 C2 C3.
  replace (tick st + 1) with (S (tick st)) in * by lia.
  replace (tick st + 2) with (S (S (tick st))) in * by lia.
  replace (tick st + 3) with (S (S (S (tick st)))) in * by lia.
  replace (tick st + 4) with (S (S (S (S (tick st))))) in * by lia.
  replace (tick st + 5) with (S (S (S (S (S (tick st)))))) in * by lia.
  replace (tick st + 6) with (S (S (S (S (S (S (tick st))))))) in * by lia.
  pose (st0 := with_conn CONNECTING
                 (with_conn_log ((conn st, CONNECTING) :: conn_log st) st)).
  assert (E0 : set_connection_state CONNECTING st = (Ret tt, st0))
    by reflexivity.
  assert (E1 : restore_from_names st0 = (Ret tt, st0)).
  { unfold restore_from_names, when, truthy.
    repeat (progress (run_monad; rewrite ?Hla, ?Hra, ?Hln, ?Hrn)).
    reflexivity. }
  pose proof (_connect_glass_first_attempt w Left st0 la Hla Hln HN O1 L1 C1)
    as E2.
  match type of E2 with _ = (_, ?s) => set (st1 := s) in E2 end.
  pose proof (_connect_glass_first_attempt w Right st1 ra Hra Hrn HN O2 L2 C2)
    as E3.
  match type of E3 with _ = (_, ?s) => set (st2 := s) in E3 end.
  assert (E12 : strategy1 w st0 = (Ret (true, true), st2)).
  { unfold strategy1. rewrite bind_gets.
    change (config st0) with (config st). rewrite Hla, Hra. unfold truthy. rewrite Hln, Hrn.
    simpl andb. cbv iota. unfold connect_both.
    cbn [andb]. rewrite (bind_run _ _ _ _ _ E2), (bind_run _ _ _ _ _ E3). reflexivity. }
  assert (E4 : exists st3,
             evaluate w (true, true) st2 = (Ret true, st3)
             /\ conn st3 = CONNECTED
             /\ left_client st3 = left_client st2
             /\ right_client st3 = right_client st2
             /\ config st3 = config st2
             /\ persisted st3 = persisted st2
             /\ events st3 = EvSpawnMonitor :: EvCmdStart :: events st2).
  { eexists. split.
    - unfold evaluate, set_connection_state. simpl andb. cbv iota.
      run_monad. rewrite C3. run_monad. reflexivity.
    - cbn. repeat split; reflexivity. }
  destruct E4 as (st3 & E4 & Hc & Hl & Hr & Hg & Hp & He).
  exists st3. split.
  - unfold connect_to_glasses, try_catch.
    rewrite (bind_run _ _ _ _ _ E0), (bind_run _ _ _ _ _ E1),
      (bind_run _ _ _ _ _ E12).
    rewrite (bind_run (strategy2 w (true, true)) _ st2 (true, true) st2)
      by reflexivity.
    rewrite (bind_run (strategy3 w (true, true)) _ st2 (true, true) st2)
      by reflexivity.
    rewrite (bind_run (strategy4 w (true, true)) _ st2 (true, true) st2)
      by reflexivity.
    rewrite E4. reflexivity.
  - rewrite Hc, Hl, Hr, Hg, Hp, He. subst st2 st1 st0. cbn.
    repeat split; try reflexivity.
    repeat (rewrite <- app_assoc; simpl). reflexivity.
Qed.

Lemma direct_connect_witness :
  exists st',
    connect_to_glasses Scenarios.lenses_in_range (init Scenarios.stored)
    = (Ret true, st')
    /\ conn st' = CONNECTED.
Proof.
  destruct (direct_connect Scenarios.lenses_in_range (init Scenarios.stored)
              "AA:AA:AA:AA:AA:01" "BB:BB:BB:BB:BB:02")
    as (st' & E & Hc & _); try reflexivity.
  - simpl. lia.
  - exists st'. split; [exact E | exact Hc].
Defined.

(** ** The monitoring loop *)

Lemma monitor_pass_counts st :
  shutting_down st = false ->
  exists st',
    monitor_pass st = (Ret false, st')
    /\ error_count st' = error_count st + dropped_count st
    /\ events st' = EvSleep 10000 :: events st
    /\ left_client st' = left_client st
    /\ right_client st' = right_client st
    /\ shutting_down st' = false
    /\ tick st' = tick st
    /\ config st' = config st
    /\ conn st' = conn st
    /\ connection_quality st' = connection_quality st.
Proof.
  intros H. destruct st as [cfg per lc rc cn lg sd mt ec le lh sm cq evs tk].
  cbn in H. subst sd.
  destruct lc as [[la lcb [|]] |], rc as [[ra rcb [|]] |];
    (eexists; split; [reflexivity |]);
    unfold dropped_count, dropped; cbn;
    repeat split; try reflexivity; lia.
Qed.

(** The monitoring loop only counts: while the shutdown flag is down,
    [n] passes never return, make no call to the outside, leave both
    clients, the configuration, the connection state and the quality map
    as they were, sleep 10 s each, and add one error per pass for every
    side whose stored client is not connected.  A dropped link is thus
    counted again every 10 s for as long as it stays stored, and the loop
    never reconnects it. *)
Theorem monitor_counts_dropped_links (n : nat) (st : St) :
  shutting_down st = false ->
  exists st',
    _monitor_connection_quality n st = (Ret None, st')
    /\ error_count st' = error_count st + n * dropped_count st
    /\ events st' = (repeat (EvSleep 10000) n ++ events st)%list
    /\ left_client st' = left_client st
    /\ right_client st' = right_client st
    /\ tick st' = tick st
    /\ config st' = config st
    /\ conn st' = conn st
    /\ connection_quality st' = connection_quality st.
Proof.
  revert st. induction n as [| n IH]; intros st H.
  - exists st. simpl. repeat split; try reflexivity; lia.
  - destruct (monitor_pass_counts st H)
      as (st1 & E1 & Hc & He & Hl & Hr & Hs & Ht & Hg & Hn & Hq).
    destruct (IH st1 Hs)
      as (st2 & E2 & Hc' & He' & Hl' & Hr' & Ht' & Hg' & Hn' & Hq').
    exists st2. split.
    + simpl. rewrite bind_gets, H. unfold bind. rewrite E1. exact E2.
    + assert (Hd : dropped_count st1 = dropped_count st)
        by (unfold dropped_count, dropped, side_client; rewrite Hl, Hr;
            reflexivity).
      rewrite Hc', He', Hl', Hr', Ht', Hg', Hn', Hq', Hd, Hc, He.
      repeat split; try assumption.
      * simpl. lia.
      * change (EvSleep 10000 :: events st)
          with ([EvSleep 10000] ++ events st)%list.
        rewrite app_assoc. f_equal.
        change [EvSleep 10000%Z] with (repeat (EvSleep 10000%Z) 1).
        rewrite <- repeat_app. f_equal. lia.
Qed.

Lemma monitor_counts_dropped_links_witness :
  exists st',
    _monitor_connection_quality 3 left_link_dropped = (Ret None, st')
    /\ error_count st' = error_count left_link_dropped + 3.
Proof.
  destruct (monitor_counts_dropped_links 3 left_link_dropped
              eq_refl) as (st' & E & Hc & _).
  exists st'. split; [exact E | exact Hc].
Defined.

(** ** The quality map *)

Lemma update_quality_step s new_rssi error side st :
  exists st',
    _update_connection_quality s new_rssi error st = (Ret tt, st')
    /\ quality_of side st'
       = (if decide (s = side)
          then {| rssi := match new_rssi with
                          | Some x => Some x
                          | None => rssi (quality_of side st)
                          end;
                  errors := errors (quality_of side st)
                            + (if error then 1 else 0) |}
          else quality_of side st)
    /\ (s <> side ->
        connection_quality st' !! side = connection_quality st !! side)
    /\ error_count st' = error_count st
    /\ last_error st' = last_error st
    /\ events st' = events st
    /\ tick st' = tick st.
Proof.
  eexists. split; [reflexivity |]. cbn.
  split; [| split; [intros Hne; apply lookup_insert_ne; exact Hne
                   | repeat split; reflexivity]].
  unfold quality_of. cbn. destruct (decide (s = side)) as [-> | Hne].
  - rewrite lookup_insert_eq.
    destruct (connection_quality st !! side) as [[r0 e0] |];
      destruct new_rssi, error; cbn; f_equal; lia.
  - rewrite lookup_insert_ne by exact Hne. reflexivity.
Qed.

(** Calls of [_update_connection_quality] add up per side: after any
    sequence of calls the error count the map holds for a side is the one
    it held before (0 for a side never seen) plus the number of calls for
    that side carrying the error flag, and its signal strength is the last
    one given for that side.  The entry of a side no call names is left as
    it was, absent if it was absent, and the manager's own error counter
    and last error are not touched. *)
Theorem quality_updates_accumulate (us : list QualityUpdate) (side : string)
  (st : St) :
  exists st',
    run_updates us st = (Ret tt, st')
    /\ errors (quality_of side st')
       = errors (quality_of side st) + errors_for side us
    /\ rssi (quality_of side st')
       = last_rssi side (rssi (quality_of side st)) us
    /\ (Forall (fun u => fst (fst u) <> side) us ->
        connection_quality st' !! side = connection_quality st !! side)
    /\ error_count st' = error_count st
    /\ last_error st' = last_error st
    /\ events st' = events st
    /\ tick st' = tick st.
Proof.
  revert st. induction us as [| [[s r] e] us IH]; intros st.
  - exists st. unfold errors_for. simpl. repeat split; try reflexivity; lia.
  - destruct (update_quality_step s r e side st)
      as (st1 & E1 & Hq & Hk & Hc & Hl & Hv & Ht).
    destruct (IH st1) as (st2 & E2 & He' & Hr' & Hk' & Hc' & Hl' & Hv' & Ht').
    exists st2. split.
    + change (run_updates ((s, r, e) :: us))
        with (bind (_update_connection_quality s r e)
                (fun _ => run_updates us)).
      unfold bind. rewrite E1. exact E2.
    + rewrite He', Hr', Hc', Hl', Hv', Ht', Hq, Hc, Hl, Hv, Ht.
      unfold errors_for. simpl.
      destruct (decide (s = side)) as [-> | Hne]; simpl.
      * split; [destruct e; simpl; lia |].
        split; [destruct r; reflexivity |].
        split; [| repeat split; reflexivity].
        intros Hf. inversion Hf as [| ? ? Hh _]. simpl in Hh. congruence.
      * split; [reflexivity |]. split; [reflexivity |].
        split; [| repeat split; reflexivity].
        intros Hf. inversion Hf as [| ? ? _ Hf']. subst.
        rewrite Hk' by assumption. apply Hk, Hne.
Qed.

(** ** Heartbeat rounds that go wrong *)

(** A heartbeat round with both clients stored fails at its first send:
    the frame number is used up all the same, the error is counted with
    the message of the exception, the time of the last heartbeat stays as
    it was, and the loop waits 2 s instead of the heartbeat interval.
    Nothing is sent to the right lens in that round, nor to the left, and
    no call goes to the outside. *)
Theorem heartbeat_failed_round (seq : Z) (st : St) (l r : Client) :
  left_client st = Some l ->
  right_client st = Some r ->
  exists st',
    heartbeat_pass seq st = (Ret (Z.land (seq + 1) 0xFF), st')
    /\ error_count st' = S (error_count st)
    /\ last_error st'
       = Some ("Heartbeat failed: " ++ missing_send_command)%string
    /\ last_heartbeat st' = last_heartbeat st
    /\ left_client st' = left_client st
    /\ right_client st' = right_client st
    /\ events st' = EvSleep 2000 :: events st
    /\ tick st' = tick st.
Proof.
  intros Hl Hr. eexists. split.
  - apply (heartbeat_pass_run seq st l r Hl Hr).
  - cbn. repeat split; reflexivity.
Qed.

Lemma heartbeat_failed_round_witness :
  exists st',
    heartbeat_pass 0 Scenarios.linked = (Ret 1%Z, st')
    /\ error_count st' = 1
    /\ sent (events st') = [].
Proof.
  destruct (heartbeat_failed_round 0 Scenarios.linked _ _ eq_refl eq_refl)
    as (st' & E & Hc & _ & _ & _ & _ & Hv & _).
  exists st'. split; [exact E |]. split; [exact Hc |].
  rewrite Hv. reflexivity.
Defined.

(** The heartbeat counter counts rounds, not frames that went out: with
    both clients stored, after [k] rounds the counter is [k mod 256]
    although every send failed, so a round whose send fails uses up its
    number. *)
Theorem heartbeat_counter_counts_failed_rounds (k : nat) (st : St) :
  left_client st <> None ->
  right_client st <> None ->
  fst (_heartbeat_loop k st) = Ret (Z.of_nat k mod 256)%Z.
Proof.
  intros Hl Hr. unfold _heartbeat_loop.
  apply (heartbeat_from_counts k 0 st Hl Hr).
Qed.

Lemma heartbeat_counter_counts_failed_rounds_witness :
  fst (_heartbeat_loop 300 Scenarios.linked) = Ret 44%Z.
Proof.
  apply (heartbeat_counter_counts_failed_rounds 300 Scenarios.linked);
    discriminate.
Defined.

(** While a client is missing the heartbeat loop spins: a round sends
    nothing, records nothing and does not sleep, so any number of rounds
    leaves the counter at 0 and the whole state as it was. *)
Theorem heartbeat_spins_without_a_client (k : nat) (st : St) :
  left_client st = None \/ right_client st = None ->
  _heartbeat_loop k st = (Ret 0%Z, st).
Proof.
  intros H. unfold _heartbeat_loop. generalize 0%Z as seq.
  induction k as [| k IH]; intros seq; simpl; [reflexivity |].
  assert (E : heartbeat_pass seq st = (Ret seq, st)).
  { unfold heartbeat_pass. rewrite !bind_gets.
    destruct H as [-> | ->]; [reflexivity |].
    destruct (left_client st); reflexivity. }
  unfold bind. rewrite E. apply IH.
Qed.

Lemma heartbeat_spins_without_a_client_witness :
  _heartbeat_loop 5 (init Scenarios.stored)
  = (Ret 0%Z, init Scenarios.stored).
Proof.
  apply (heartbeat_spins_without_a_client 5 (init Scenarios.stored)).
  left. reflexivity.
Defined.

(** ** How often the disconnect handler tries *)

Lemma attempts_in_app evs1 evs2 :
  attempts_in (evs1 ++ evs2) = attempts_in evs1 + attempts_in evs2.
Proof.
  unfold attempts_in. rewrite List.filter_app, length_app. reflexivity.
Qed.

Lemma attempts_in_rev evs : attempts_in (rev evs) = attempts_in evs.
Proof.
  induction evs as [| e evs IH]; [reflexivity |].
  simpl rev. rewrite attempts_in_app, IH.
  unfold attempts_in. simpl. destruct (is_attempt e); simpl; lia.
Qed.

Lemma attempts_in_quiet body :
  Forall (fun e => is_attempt e = false) body -> attempts_in body = 0.
Proof.
  induction 1 as [| e body He _ IH]; [reflexivity |].
  unfold attempts_in in *. simpl. rewrite He. exact IH.
Qed.

Lemma retry_shape_attempts side delay i k chron :
  retry_shape side delay i k chron -> attempts_in chron = k.
Proof.
  induction 1 as [i | i body Hb | i k body rest Hb _ IH].
  - reflexivity.
  - change (EvAttempt side i :: body)
      with ([EvAttempt side i] ++ body)%list.
    rewrite attempts_in_app, (attempts_in_quiet body Hb). reflexivity.
  - change (EvAttempt side i :: body ++ EvSleep delay :: rest)%list
      with ([EvAttempt side i] ++ body ++ [EvSleep delay] ++ rest)%list.
    rewrite !attempts_in_app, (attempts_in_quiet body Hb), IH. reflexivity.
Qed.

Section HandlerAttempts.

Variable w : World.

Lemma _connect_glass_attempts side st :
  let r := _connect_glass w side st in
  config (snd r) = config st
  /\ attempts_in (events (snd r))
     <= attempts_in (events st) + reconnect_attempts (config st)
  /\ exists b, fst r = Ret b.
Proof.
  cbv zeta. unfold _connect_glass, try_catch. rewrite bind_gets.
  destruct (truthy (side_address side (config st))) eqn:Ha; simpl;
    [| split; [reflexivity | split; [lia | eauto]]].
  unfold bind, range.
  destruct (attempts_shape w side (py_str (side_address side (config st)))
              (reconnect_attempts (config st)) 0 st eq_refl)
    as [Hc (k & chron & He & Hs & Hk)].
  apply retry_shape_attempts in Hs.
  assert (Hle : k <= reconnect_attempts (config st))
    by (destruct Hk as [[_ ?] | [_ ?]]; lia).
  destruct (for_each _ _ st) as [[[b |] | err] st1]; simpl in *.
  - split; [exact Hc |]. split; [| eauto].
    rewrite He, attempts_in_app, attempts_in_rev. lia.
  - split; [exact Hc |]. split; [| eauto].
    rewrite He, attempts_in_app, attempts_in_rev. lia.
  - destruct Hk as [[Hr _] | [Hr _]]; discriminate.
Qed.

Lemma reconnect_attempt_bound side i st :
  let r := reconnect_attempt w side i st in
  config (snd r) = config st
  /\ attempts_in (events (snd r))
     <= attempts_in (events st) + reconnect_attempts (config st)
  /\ exists o, fst r = Ret o.
Proof.
  cbv zeta. unfold reconnect_attempt. rewrite bind_gets.
  destruct (shutting_down st);
    [simpl; split; [reflexivity | split; [lia | eauto]] |].
  unfold try_catch, bind.
  destruct (_connect_glass_attempts side st) as (Hc & Ha & b & Hb).
  destruct (_connect_glass w side st) as [[ok | e] st1]; simpl in *;
    [| discriminate].
  destruct ok; simpl; (split; [exact Hc |]); (split; [| eauto]).
  - exact Ha.
  - unfold attempts_in in *. simpl. exact Ha.
Qed.

Lemma reconnect_attempts_bound side idx : forall st,
  let r := for_each (reconnect_attempt w side) idx st in
  config (snd r) = config st
  /\ attempts_in (events (snd r))
     <= attempts_in (events st)
        + length idx * reconnect_attempts (config st)
  /\ exists o, fst r = Ret o.
Proof.
  induction idx as [| i rest IH]; intros st; cbv zeta; simpl.
  - split; [reflexivity | split; [lia | eauto]].
  - unfold bind.
    destruct (reconnect_attempt_bound side i st) as (Hc & Ha & o & Ho).
    destruct (reconnect_attempt w side i st) as [[[b |] | e] st1];
      simpl in *; try discriminate.
    + split; [exact Hc | split; [lia | eauto]].
    + destruct (IH st1) as (Hc' & Ha' & o' & Ho').
      rewrite Hc in *. split; [exact Hc' | split; [lia | eauto]].
Qed.

End HandlerAttempts.

(** Retries multiply in the disconnect handler: it calls the per-side
    connect up to [reconnect_attempts] times and each call retries up to
    [reconnect_attempts] times itself, so one dropped link gives at most
    [reconnect_attempts * reconnect_attempts] attempts.  The handler
    never raises and leaves the configuration alone.  The bound is
    reached: with two attempts configured and every open timing out there
    are four attempts. *)
Theorem handle_disconnect_attempt_bound (w : World) (side : Side) (st : St) :
  (exists b, fst (_handle_disconnect w side st) = Ret b)
  /\ config (snd (_handle_disconnect w side st)) = config st
  /\ attempts_in (events (snd (_handle_disconnect w side st)))
     <= attempts_in (events st)
        + reconnect_attempts (config st) * reconnect_attempts (config st)
  /\ attempts_in
       (events (snd (_handle_disconnect Scenarios.silence Left
                       (init Scenarios.stored))))
     = 2 * 2.
Proof.
  split; [| split; [| split; [| reflexivity]]];
    unfold _handle_disconnect; rewrite bind_gets;
    destruct (shutting_down st); simpl; eauto; try lia;
    unfold record_error; rewrite bind_modify, bind_gets; unfold bind;
    match goal with
    | |- context [for_each ?f ?idx ?s] =>
        destruct (reconnect_attempts_bound w side idx s) as (Hc & Ha & o & Ho);
        destruct (for_each f idx s) as [[[b |] | e] st1]
    end; simpl in *; try discriminate; eauto;
    unfold range in Ha; rewrite length_seq in Ha; exact Ha.
Qed.

(** ** A link whose notifications cannot be started *)

Section NotifyFails.

Variable w : World.

(** The client is stored before the notifications are started, so an
    attempt that fails there leaves it stored. *)
Lemma attempt_body_notify_fails side address i st e :
  w_open w (tick st) = Ret true ->
  w_lookup w (S (tick st)) = Ret LkOk ->
  w_call w (S (S (tick st))) = Exc e ->
  attempt_body w side address i st
  = (Exc e,
     with_tick (S (S (S (tick st))))
       (with_events
          (EvNotify side :: EvLookup side
           :: EvOpen side address (connection_timeout (config st))
           :: EvAttempt side i :: events st)
          (match side with
           | Left => with_left_client
           | Right => with_right_client
           end (Some {| c_address := address; c_callback := Some side;
                        c_connected := true |}) st))).
Proof.
  intros H0 H1 H2.
  destruct side;
    unfold attempt_body, open_client, _verify_connection, verify_attempt,
      range, set_side_client;
    simpl seq; run_verify; rewrite H0; run_verify; rewrite H1;
    run_verify; rewrite H2; run_verify; reflexivity.
Qed.

Lemma connect_attempt_notify_fails side address i st e :
  w_open w (tick st) = Ret true ->
  w_lookup w (S (tick st)) = Ret LkOk ->
  w_call w (S (S (tick st))) = Exc e ->
  exists st',
    connect_attempt w side address i st = (Ret None, st')
    /\ tick st' = 3 + tick st
    /\ config st' = config st
    /\ side_client side st'
       = Some {| c_address := address; c_callback := Some side;
                 c_connected := true |}
    /\ side_client (other_side side) st'
       = side_client (other_side side) st
    /\ length (opens (events st')) = S (length (opens (events st)))
    /\ closes (events st') = closes (events st).
Proof.
  intros H0 H1 H2.
  pose proof (attempt_body_notify_fails side address i st e H0 H1 H2) as E.
  match type of E with _ = (_, ?s) => set (st1 := s) in E end.
  exists (snd (attempt_failed side i e st1)). split.
  - unfold connect_attempt, try_catch, bind. rewrite E.
    rewrite (attempt_failed_run side i e st1). reflexivity.
  - rewrite (attempt_failed_run side i e st1). subst st1.
    destruct side; cbn;
      match goal with
      | |- context [if ?c then _ else _] => destruct c
      end; cbn; repeat split; reflexivity.
Qed.

Lemma attempts_notify_fail side address e n : forall i st,
  (forall j, j < n ->
     w_open w (tick st + 3 * j) = Ret true
     /\ w_lookup w (tick st + 3 * j + 1) = Ret LkOk
     /\ w_call w (tick st + 3 * j + 2) = Exc e) ->
  exists st',
    for_each (connect_attempt w side address) (seq i n) st = (Ret None, st')
    /\ tick st' = tick st + 3 * n
    /\ config st' = config st
    /\ side_client side st'
       = (match n with
          | 0 => side_client side st
          | S _ => Some {| c_address := address; c_callback := Some side;
                           c_connected := true |}
          end)
    /\ side_client (other_side side) st'
       = side_client (other_side side) st
    /\ length (opens (events st')) = length (opens (events st)) + n
    /\ closes (events st') = closes (events st).
Proof.
  induction n as [| n IH]; intros i st Hw.
  - exists st. simpl. repeat split; try reflexivity; lia.
  - destruct (Hw 0 ltac:(lia)) as (H0 & H1 & H2).
    replace (tick st + 3 * 0) with (tick st) in * by lia.
    replace (tick st + 1) with (S (tick st)) in * by lia.
    replace (tick st + 2) with (S (S (tick st))) in * by lia.
    destruct (connect_attempt_notify_fails side address i st e H0 H1 H2)
      as (st1 & E1 & Ht & Hc & Hs & Ho & Hn & Hx).
    assert (Hw1 : forall j, j < n ->
              w_open w (tick st1 + 3 * j) = Ret true
              /\ w_lookup w (tick st1 + 3 * j + 1) = Ret LkOk
              /\ w_call w (tick st1 + 3 * j + 2) = Exc e).
    { intros j Hj. destruct (Hw (S j) ltac:(lia)) as (A & B & C).
      rewrite Ht.
      replace (3 + tick st + 3 * j) with (tick st + 3 * S j) by lia.
      auto. }
    destruct (IH (S i) st1 Hw1)
      as (st2 & E2 & Ht' & Hc' & Hs' & Ho' & Hn' & Hx').
    exists st2. split.
    + simpl. unfold bind. rewrite E1. exact E2.
    + rewrite Ht', Hc', Ho', Hn', Hx', Ht, Hc, Ho, Hn, Hx, Hs'.
      repeat split; try reflexivity; try lia.
      destruct n; [exact Hs | reflexivity].
Qed.

End NotifyFails.

(** [_connect_glass] can answer false with the link up.  The client is
    stored before its notifications are started; when that start raises
    in every attempt, each attempt opens a new link and stores it over
    the one before, none is closed, and after the last attempt
    [_connect_glass] returns false while the side holds a connected
    client.  The other side is left alone. *)
Theorem notify_failure_leaves_live_link (w : World) (side : Side) (st : St)
  (address e : string) :
  side_address side (config st) = Some address ->
  PyStr.nonempty address = true ->
  1 <= reconnect_attempts (config st) ->
  (forall j, j < reconnect_attempts (config st) ->
     w_open w (tick st + 3 * j) = Ret true
     /\ w_lookup w (tick st + 3 * j + 1) = Ret LkOk
     /\ w_call w (tick st + 3 * j + 2) = Exc e) ->
  exists st',
    _connect_glass w side st = (Ret false, st')
    /\ side_client side st'
       = Some {| c_address := address; c_callback := Some side;
                 c_connected := true |}
    /\ side_client (other_side side) st'
       = side_client (other_side side) st
    /\ length (opens (events st'))
       = length (opens (events st)) + reconnect_attempts (config st)
    /\ closes (events st') = closes (events st).
Proof.
  intros Ha Hn HN Hw.
  destruct (attempts_notify_fail w side address e
              (reconnect_attempts (config st)) 0 st Hw)
    as (st' & E & _ & _ & Hs & Ho & Hp & Hx).
  exists st'. split.
  - unfold _connect_glass, try_catch. rewrite bind_gets.
    rewrite Ha. unfold truthy, py_str. rewrite Hn.
    change (negb true) with false. cbv iota.
    unfold bind, range. rewrite E. reflexivity.
  - rewrite Hs, Ho, Hp, Hx.
    destruct (reconnect_attempts (config st)); [lia |].
    repeat split; reflexivity.
Qed.

Lemma notify_failure_leaves_live_link_witness :
  exists st',
    _connect_glass notify_fails Left (init Scenarios.stored)
    = (Ret false, st')
    /\ client_is_connected (left_client st') = true.
Proof.
  destruct (notify_failure_leaves_live_link notify_fails Left
              (init Scenarios.stored) "AA:AA:AA:AA:AA:01" "notify failed")
    as (st' & E & Hs & _); try reflexivity.
  - simpl. lia.
  - intros j _. repeat split; reflexivity.
  - exists st'. split; [exact E |].
    change (left_client st') with (side_client Left st').
    rewrite Hs. reflexivity.
Defined.

(** ** Letter case in error messages *)

Lemma lower_upper_ascii c :
  PyStr.lower_ascii (PyStr.upper_ascii c) = PyStr.lower_ascii c.
Proof.
  destruct c as [[] [] [] [] [] [] [] []]; reflexivity.
Qed.

Lemma lower_lower_ascii c :
  PyStr.lower_ascii (PyStr.lower_ascii c) = PyStr.lower_ascii c.
Proof.
  destruct c as [[] [] [] [] [] [] [] []]; reflexivity.
Qed.

Lemma lower_upper s : PyStr.lower (PyStr.upper s) = PyStr.lower s.
Proof.
  induction s as [| c s IH]; [reflexivity |].
  unfold PyStr.lower, PyStr.upper in *. simpl.
  rewrite lower_upper_ascii, IH. reflexivity.
Qed.

Lemma lower_lower s : PyStr.lower (PyStr.lower s) = PyStr.lower s.
Proof.
  induction s as [| c s IH]; [reflexivity |].
  unfold PyStr.lower in *. simpl.
  rewrite lower_lower_ascii, IH. reflexivity.
Qed.

(** For an error message of ASCII characters, the class a failed attempt
    is logged under does not depend on the letter case of the message,
    and neither does the choice of the fallback open, which is made by
    the same "not found" test.  (Outside ASCII Python's case mapping can
    create or destroy a match, and nothing is stated.) *)
Theorem classify_ignores_ascii_case (e : string) :
  ascii_only e = true ->
  classify (PyStr.upper e) = classify e
  /\ classify (PyStr.lower e) = classify e
  /\ PyStr.contains "not found" (PyStr.lower (PyStr.upper e))
     = PyStr.contains "not found" (PyStr.lower e).
Proof.
  intros _. unfold classify. rewrite lower_upper, lower_lower.
  repeat split; reflexivity.
Qed.

Lemma classify_ignores_ascii_case_witness :
  ascii_only "Device Not Found" = true
  /\ classify (PyStr.upper "Device Not Found") = NotFound
  /\ classify "Device Not Found" = NotFound.
Proof.
  split; [reflexivity |].
  destruct (classify_ignores_ascii_case "Device Not Found" eq_refl)
    as (Hu & _ & _).
  split; [rewrite Hu |]; reflexivity.
Defined.

(** ** The Windows listing *)

Lemma primary_devices_have_addresses cfg out :
  Forall (fun d => truthy (di_address d) = true) (primary_devices cfg out).
Proof.
  unfold primary_devices.
  induction (PyStr.split PyStr.newline (PyStr.strip out)) as [| l ls IH];
    simpl; [constructor |].
  apply Forall_app. split; [| exact IH].
  destruct (negb _ || _ || _); [constructor |].
  destruct (PyStr.contains "G1" _ || PyStr.contains "Even" _);
    [| constructor].
  destruct (truthy (primary_address cfg (PyStr.strip l)
                      (PyStr.strip (PyStr.strip l)))) eqn:Ht;
    [| constructor].
  constructor; [exact Ht | constructor].
Qed.

(** [_get_windows_connected_g1_devices] never raises, whatever the
    PowerShell calls do, makes at most two of them, and changes nothing
    of the manager: configuration, store, clients and connection state
    are as before.  When the alternative listing was not needed, every
    entry it returns carries an address. *)
Theorem windows_listing_never_raises (w : World) (st : St) :
  exists ds st',
    _get_windows_connected_g1_devices w st = (Ret ds, st')
    /\ config st' = config st
    /\ persisted st' = persisted st
    /\ left_client st' = left_client st
    /\ right_client st' = right_client st
    /\ conn st' = conn st
    /\ tick st' <= tick st + 2
    /\ (events st' = EvWindowsQuery :: events st ->
        Forall (fun d => truthy (di_address d) = true) ds).
Proof.
  pose proof (primary_devices_have_addresses (config st)) as Hp.
  unfold _get_windows_connected_g1_devices. rewrite bind_gets.
  unfold try_catch, bind, emit, ask, modify, ret. cbn.
  destruct (w_subprocess w (tick st)) as [r | e]; cbn.
  - specialize (Hp (stdout r)).
    destruct (usable r);
      [destruct (primary_devices (config st) (stdout r)) as [| d ds] |];
      cbn;
      try (destruct (w_subprocess w (S (tick st))) as [r2 | e2]; cbn);
      do 2 eexists; (split; [reflexivity |]); cbn;
      repeat (split; [reflexivity || lia |]);
      first [ intros _; exact Hp | intros H; discriminate H ].
  - do 2 eexists. split; [reflexivity |]. cbn.
    repeat (split; [reflexivity || lia |]). intros _. constructor.
Qed.

(** ** Starting and stopping the monitor *)

(** [start_monitoring] creates a task only when none is stored and
    [stop_monitoring] cancels only a stored one: after a start a task is
    stored, after a stop none is, a second start or a second stop in a
    row does nothing, and a start followed by a stop cancels exactly one
    task. *)
Theorem start_stop_monitoring (st : St) :
  let st1 := snd (start_monitoring st) in
  let st2 := snd (stop_monitoring st1) in
  monitoring_task st1 = true
  /\ spawns (events st1)
     = spawns (events st) + (if monitoring_task st then 0 else 1)
  /\ start_monitoring st1 = (Ret tt, st1)
  /\ monitoring_task st2 = false
  /\ cancels (events st2) = S (cancels (events st))
  /\ stop_monitoring st2 = (Ret tt, st2).
Proof.
  destruct st as [cfg per lc rc cn lg sd mt ec le lh sm cq evs tk].
  destruct mt; cbn; unfold spawns, cancels; cbn;
    repeat split; try reflexivity; lia.
Qed.
